(** * morph: a codec between mainframe field encodings and decimal strings

    A shallow embedding of [morph.py] (functions [unpack], [add_dec_places]
    and [pack]) together with the Python built-ins these functions call, and
    the properties of the codec proved or refuted on that embedding.

    Conventions of the embedding:
    - a Python [str] is the list of its characters, a character being its
      code point (Python's are U+0000..U+10FFFF; the cp037 code page holds
      U+0000..U+00FF);
    - a [bytes]/[bytearray] value is a list of [byte];
    - a Python [int] is a [Z];
    - a call either returns a value, raises an exception, or leaves through
      [exit()] after printing a diagnostic: see [result]. *)

From Stdlib Require Import ZArith NArith Lia List String Ascii Bool.
From Stdlib.Strings Require Import Byte.
Import ListNotations.

Open Scope string_scope.
Open Scope list_scope.
Open Scope Z_scope.

(** ** Strings, exceptions and results *)

Abbreviation char := Z (only parsing).

Definition str := list char.

(** The code point of a character written as a literal, and the string of a
    string literal. *)
Definition code (a : ascii) : char := Z.of_N (N_of_ascii a).

Definition lit (s : string) : str := map code (list_ascii_of_string s).
Coercion lit : string >-> str.

Notation "a +++ b" := (@app char (a : str) (b : str) : str)
  (at level 60, right associativity).

(** The exceptions the modelled built-ins raise. *)
Inductive exn : Type :=
| ValueError
| IndexError
| StructError
| UnicodeEncodeError.

(** The three ways a call can end.  [SystemExit out] is what [exit()] does,
    [out] being the text printed just before. *)
Inductive result (A : Type) : Type :=
| Ok (a : A)
| Raise (e : exn)
| SystemExit (out : str).

Arguments Ok {A} a.
Arguments Raise {A} e.
Arguments SystemExit {A} out.

Definition bind {A B : Type} (c : result A) (k : A -> result B) : result B :=
  match c with
  | Ok a => k a
  | Raise e => Raise e
  | SystemExit out => SystemExit out
  end.

Notation "x <- c ;; k" := (bind c (fun x => k))
  (at level 61, c at next level, right associativity).

(** What the caller observes. *)
Definition returns_value {A : Type} (r : result A) : Prop :=
  exists a, r = Ok a.

Definition returns_error {A : Type} (r : result A) : Prop :=
  exists e, r = Raise e.

Definition terminates_process {A : Type} (r : result A) : Prop :=
  exists out, r = SystemExit out.

(** ** The Python built-ins used by morph.py *)

Module Py.

(** [len(x)] *)
Definition len {A : Type} (l : list A) : Z := Z.of_nat (List.length l).

(** [ord(c)] and [chr(n)]: a character is its code point. *)
Definition ord (c : char) : Z := c.
Definition chr (n : Z) : char := n.

Fixpoint str_eqb (a b : str) : bool :=
  match a, b with
  | [], [] => true
  | x :: a', y :: b' => (x =? y) && str_eqb a' b'
  | _, _ => false
  end.

(** [a <= b] on strings: lexicographic on code points, a proper prefix
    being smaller. *)
Fixpoint str_le (a b : str) : bool :=
  match a, b with
  | [], _ => true
  | _ :: _, [] => false
  | x :: a', y :: b' =>
      if ord x <? ord y then true
      else if ord y <? ord x then false
      else str_le a' b'
  end.

(** [s.lower()]. Below U+0100: A-Z and the accented capitals U+00C0..U+00DE
    (the multiplication sign U+00D7 apart) move up by 32.  From U+0100 on the
    interpreter's table is not reproduced and the character is left as it is.
    The lower-case form of a character of that range is the letter k (for the
    Kelvin sign) or holds a character above U+007F, and no format tag has
    either: whether [type.lower()] equals a tag does not depend on the part
    of the table left out. *)
Definition lower_char (c : char) : char :=
  let n := ord c in
  if ((65 <=? n) && (n <=? 90))
     || ((192 <=? n) && (n <=? 222) && negb (n =? 215))
  then chr (n + 32) else c.

Definition lower (s : str) : str := map lower_char s.

(** [c.isspace()]: the control characters 9..13 and 28..31, the space,
    U+0085, U+00A0, and the spaces U+1680, U+2000..U+200A, U+2028, U+2029,
    U+202F, U+205F and U+3000. *)
Definition isspace (c : char) : bool :=
  let n := ord c in
  ((9 <=? n) && (n <=? 13)) || ((28 <=? n) && (n <=? 32))
  || (n =? 133) || (n =? 160)
  || (n =? 5760) || ((8192 <=? n) && (n <=? 8202))
  || (n =? 8232) || (n =? 8233) || (n =? 8239) || (n =? 8287) || (n =? 12288).

(** C's [isspace] on ASCII, used by [fromhex] and [int]. *)
Definition is_c_space (c : char) : bool :=
  let n := ord c in
  ((9 <=? n) && (n <=? 13)) || (n =? 32).

Fixpoint startswith (s prefix : str) {struct prefix} : bool :=
  match prefix, s with
  | [], _ => true
  | _ :: _, [] => false
  | p :: prefix', c :: s' => Z.eqb c p && startswith s' prefix'
  end.

(** [s.replace(old, new)]: occurrences of [old] are replaced from the left,
    without overlap; [skip] counts the characters of a match still to drop. *)
Fixpoint replace_from (old new : str) (skip : nat) (s : str) : str :=
  match s with
  | [] => []
  | c :: s' =>
      match skip with
      | S k => replace_from old new k s'
      | O =>
          if startswith s old
          then new ++ replace_from old new (List.length old - 1)%nat s'
          else c :: replace_from old new 0 s'
      end
  end.

Definition replace (s old new : str) : str :=
  match old with
  | [] => new ++ flat_map (fun c => c :: new) s
  | _ :: _ => replace_from old new 0 s
  end.

Fixpoint lstrip_by (f : char -> bool) (s : str) : str :=
  match s with
  | [] => []
  | c :: s' => if f c then lstrip_by f s' else s
  end.

Definition rstrip_by (f : char -> bool) (s : str) : str :=
  rev (lstrip_by f (rev s)).

(** [s.rstrip()] *)
Definition rstrip (s : str) : str := rstrip_by isspace s.

(** [int * str] *)
Definition repeat_str (n : Z) (s : str) : str :=
  List.concat (repeat s (Z.to_nat n)).

(** [s.zfill(width)]: zeros go after a leading sign. *)
Definition zfill (s : str) (width : Z) : str :=
  let fill := repeat_str (width - len s) "0" in
  match s with
  | c :: s' =>
      if Z.eqb c (code "+") || Z.eqb c (code "-") then c :: fill ++ s'
      else fill ++ s
  | [] => fill
  end.

(** Slices [l[lo:hi]]: a negative index counts from the end, and indices
    are clamped to the sequence. *)
Definition slice_index (n i : Z) : Z :=
  if i <? 0 then Z.max 0 (i + n) else Z.min i n.

Definition slice {A : Type} (l : list A) (lo hi : option Z) : list A :=
  let n := len l in
  let a := match lo with None => 0 | Some i => slice_index n i end in
  let b := match hi with None => n | Some j => slice_index n j end in
  firstn (Z.to_nat (b - a)) (skipn (Z.to_nat a) l).

(** [sep.join(s)] for a string [s], iterated character by character. *)
Fixpoint join (sep : str) (s : str) : str :=
  match s with
  | [] => []
  | [c] => [c]
  | c :: s' => c :: sep ++ join sep s'
  end.

(** *** Numbers and their text *)

Definition digit_char (d : Z) : char := chr (48 + d).

(** Decimal digits of a non-negative number, most significant first. *)
Fixpoint decimal_digits (fuel : nat) (n : Z) (acc : str) : str :=
  match fuel with
  | O => acc
  | S fuel' =>
      let acc' := digit_char (n mod 10) :: acc in
      if n <? 10 then acc' else decimal_digits fuel' (n / 10) acc'
  end.

(** [str(n)] for an [int].  Interpreters that limit the number of digits of
    a conversion (4300 by default) raise [ValueError] for a longer number; the
    limit is not part of the model, and the properties below bound the numbers
    they write. *)
Definition str_of_int (n : Z) : str :=
  let m := Z.abs n in
  let ds := decimal_digits (S (Z.to_nat (Z.log2 m))) m [] in
  if n <? 0 then code "-" :: ds else ds.

(** Binary digits, for [bin]. *)
Fixpoint binary_digits (fuel : nat) (n : Z) (acc : str) : str :=
  match fuel with
  | O => acc
  | S fuel' =>
      let acc' := digit_char (n mod 2) :: acc in
      if n <? 2 then acc' else binary_digits fuel' (n / 2) acc'
  end.

(** [bin(n)] *)
Definition bin (n : Z) : str :=
  let m := Z.abs n in
  let ds := "0b" +++ binary_digits (S (Z.to_nat (Z.log2 m))) m [] in
  if n <? 0 then code "-" :: ds else ds.

Definition is_digit (c : char) : bool := (48 <=? ord c) && (ord c <=? 57).

(** The characters that stand for the digit zero in the scripts that have
    decimal digits (Unicode 14, category Nd); the nine characters after each
    are the digits one to nine. *)
Definition decimal_zeros : list Z :=
  [ 48; 1632; 1776; 1984; 2406; 2534; 2662; 2790; 2918; 3046; 3174; 3302;
    3430; 3558; 3664; 3792; 3872; 4160; 4240; 6112; 6160; 6470; 6608; 6784;
    6800; 6992; 7088; 7232; 7248; 42528; 43216; 43264; 43472; 43504; 43600;
    44016; 65296; 66720; 68912; 69734; 69872; 69942; 70096; 70384; 70736;
    70864; 71248; 71360; 71472; 71904; 72016; 72784; 73040; 73120; 92768;
    92864; 93008; 120782; 120792; 120802; 120812; 120822; 123200; 123632;
    125264; 130032 ].

(** The value of a decimal digit of any script, as [int] reads it. *)
Fixpoint decimal_value_in (zeros : list Z) (c : char) : option Z :=
  match zeros with
  | [] => None
  | z :: zeros' =>
      if (z <=? ord c) && (ord c <? z + 10) then Some (ord c - z)
      else decimal_value_in zeros' c
  end.

Definition decimal_value (c : char) : option Z :=
  decimal_value_in decimal_zeros c.

(** Digits with single underscores between them, as [int] accepts them. *)
Fixpoint parse_digits (acc : Z) (after_digit : bool) (s : str) : option Z :=
  match s with
  | [] => if after_digit then Some acc else None
  | c :: s' =>
      match decimal_value c with
      | Some v => parse_digits (10 * acc + v) true s'
      | None =>
          if Z.eqb c (code "_") && after_digit then parse_digits acc false s'
          else None
      end
  end.

(** White space that [int] drops at both ends of a string: C's on ASCII,
    and every other space character. *)
Definition is_int_space (c : char) : bool :=
  is_c_space c || ((127 <=? ord c) && isspace c).

(** [int(s)] for a string, base 10.  Interpreters that limit the number of
    digits of a conversion (4300 by default) refuse longer strings with
    [ValueError]; the limit is not part of the model, and the properties below
    that read or write numbers keep them far below it. *)
Definition int_of_str (s : str) : result Z :=
  let s := rstrip_by is_int_space (lstrip_by is_int_space s) in
  let '(neg, body) :=
    match s with
    | c :: s' =>
        if Z.eqb c (code "-") then (true, s')
        else if Z.eqb c (code "+") then (false, s')
        else (false, s)
    | [] => (false, s)
    end in
  match parse_digits 0 false body with
  | Some n => Ok (if neg : bool then - n else n)
  | None => Raise ValueError
  end.

(** Value of a hexadecimal digit, either case. *)
Definition hex_value (c : char) : option Z :=
  let n := ord c in
  if (48 <=? n) && (n <=? 57) then Some (n - 48)
  else if (97 <=? n) && (n <=? 102) then Some (n - 87)
  else if (65 <=? n) && (n <=? 70) then Some (n - 55)
  else None.

Fixpoint parse_hex (acc : Z) (s : str) : option Z :=
  match s with
  | [] => Some acc
  | c :: s' =>
      match hex_value c with
      | Some d => parse_hex (16 * acc + d) s'
      | None => None
      end
  end.

(** [int("0x" + h, 0)], for [h] a string of hexadecimal digits as
    [bytes.hex()] and [n * "f"] produce them; the empty string is refused. *)
Definition int_of_0x (h : str) : result Z :=
  match h with
  | [] => Raise ValueError
  | _ :: _ =>
      match parse_hex 0 h with
      | Some n => Ok n
      | None => Raise ValueError
      end
  end.

(** *** Bytes *)

Definition byte_val (b : byte) : Z := Z.of_N (Byte.to_N b).

Definition byte_of (n : Z) : byte :=
  match Byte.of_N (Z.to_N n) with
  | Some b => b
  | None => x00
  end.

Definition hex_digit (d : Z) : char :=
  nth (Z.to_nat d) (lit "0123456789abcdef") (code "0").

(** [b.hex()] *)
Fixpoint hex (bs : list byte) : str :=
  match bs with
  | [] => []
  | b :: bs' =>
      hex_digit (byte_val b / 16) :: hex_digit (byte_val b mod 16) :: hex bs'
  end.

(** [bytearray.fromhex(s)]: white space is skipped before each pair of
    digits, and anything else that is not a pair of hexadecimal digits is a
    [ValueError]. *)
Fixpoint fromhex (s : str) : result (list byte) :=
  match s with
  | [] => Ok []
  | c :: s' =>
      if is_c_space c then fromhex s'
      else
        match hex_value c, s' with
        | Some hi, c' :: s'' =>
            match hex_value c' with
            | Some lo => bs <- fromhex s'' ;; Ok (byte_of (16 * hi + lo) :: bs)
            | None => Raise ValueError
            end
        | _, _ => Raise ValueError
        end
  end.

(** [b.ljust(width, fill)] *)
Definition ljust (bs : list byte) (width : Z) (fill : byte) : list byte :=
  bs ++ repeat fill (Z.to_nat (width - len bs)).

(** Big-endian bytes of [n], [k] of them. *)
Fixpoint to_bytes_be (k : nat) (n : Z) : list byte :=
  match k with
  | O => []
  | S k' => to_bytes_be k' (n / 256) ++ [byte_of (n mod 256)]
  end.

(** [struct.pack(">Q", n)] and [struct.pack(">q", n)] *)
Definition struct_pack_Q (n : Z) : result (list byte) :=
  if (0 <=? n) && (n <? 2 ^ 64) then Ok (to_bytes_be 8 n)
  else Raise StructError.

Definition struct_pack_q (n : Z) : result (list byte) :=
  if (- 2 ^ 63 <=? n) && (n <? 2 ^ 63) then Ok (to_bytes_be 8 (n mod 2 ^ 64))
  else Raise StructError.

(** *** The cp037 code page *)

(** The decoding table of the codec: entry [i] is the code point of byte [i]. *)
Definition cp037_decoding_table : list Z :=
  [   0;   1;   2;   3; 156;   9; 134; 127; 151; 141; 142;  11;  12;  13;  14;  15;
     16;  17;  18;  19; 157; 133;   8; 135;  24;  25; 146; 143;  28;  29;  30;  31;
    128; 129; 130; 131; 132;  10;  23;  27; 136; 137; 138; 139; 140;   5;   6;   7;
    144; 145;  22; 147; 148; 149; 150;   4; 152; 153; 154; 155;  20;  21; 158;  26;
     32; 160; 226; 228; 224; 225; 227; 229; 231; 241; 162;  46;  60;  40;  43; 124;
     38; 233; 234; 235; 232; 237; 238; 239; 236; 223;  33;  36;  42;  41;  59; 172;
     45;  47; 194; 196; 192; 193; 195; 197; 199; 209; 166;  44;  37;  95;  62;  63;
    248; 201; 202; 203; 200; 205; 206; 207; 204;  96;  58;  35;  64;  39;  61;  34;
    216;  97;  98;  99; 100; 101; 102; 103; 104; 105; 171; 187; 240; 253; 254; 177;
    176; 106; 107; 108; 109; 110; 111; 112; 113; 114; 170; 186; 230; 184; 198; 164;
    181; 126; 115; 116; 117; 118; 119; 120; 121; 122; 161; 191; 208; 221; 222; 174;
     94; 163; 165; 183; 169; 167; 182; 188; 189; 190;  91;  93; 175; 168; 180; 215;
    123;  65;  66;  67;  68;  69;  70;  71;  72;  73; 173; 244; 246; 242; 243; 245;
    125;  74;  75;  76;  77;  78;  79;  80;  81;  82; 185; 251; 252; 249; 250; 255;
     92; 247;  83;  84;  85;  86;  87;  88;  89;  90; 178; 212; 214; 210; 211; 213;
     48;  49;  50;  51;  52;  53;  54;  55;  56;  57; 179; 219; 220; 217; 218; 159 ].

Definition cp037_decode_byte (b : byte) : char :=
  chr (nth (Z.to_nat (byte_val b)) cp037_decoding_table 0).

(** Position of a code point in the table, from index [i] on. *)
Fixpoint table_index (n : Z) (i : Z) (table : list Z) : option Z :=
  match table with
  | [] => None
  | m :: table' => if m =? n then Some i else table_index n (i + 1) table'
  end.

Definition cp037_encode_char (c : char) : option byte :=
  match table_index (ord c) 0 cp037_decoding_table with
  | Some i => Some (byte_of i)
  | None => None
  end.

(** [b.decode('cp037')] *)
Definition decode_cp037 (bs : list byte) : str := map cp037_decode_byte bs.

(** [s.encode('cp037')] *)
Fixpoint encode_cp037 (s : str) : result (list byte) :=
  match s with
  | [] => Ok []
  | c :: s' =>
      match cp037_encode_char c with
      | Some b => bs <- encode_cp037 s' ;; Ok (b :: bs)
      | None => Raise UnicodeEncodeError
      end
  end.

(** [print(a1, ..., an)] writes its arguments separated by a space and
    followed by a newline.  What the standard output can write depends on its
    encoding and error handler; the model takes UTF-8 with the strict handler,
    which writes every character but the surrogates U+D800..U+DFFF and raises
    [UnicodeEncodeError] on those. *)
Definition newline : str := [code "010"].

Fixpoint print_text (args : list str) : str :=
  match args with
  | [] => newline
  | [a] => a ++ newline
  | a :: args' => a ++ " " +++ print_text args'
  end.

Definition is_surrogate (c : char) : bool :=
  (55296 <=? ord c) && (ord c <=? 57343).

Definition utf8_encodable (s : str) : bool :=
  forallb (fun c => negb (is_surrogate c)) s.

Definition print (args : list str) : result str :=
  if forallb utf8_encodable args then Ok (print_text args)
  else Raise UnicodeEncodeError.

End Py.

(** ** morph.py *)

Module Morph.
Import Py.

Definition HighestPositive : str := "7fffffffffffffffffff".

Definition add_dec_places (value : str) (decimal_places : Z) : str :=
  if decimal_places =? 0 then value
  else
    slice value None (Some (len value - decimal_places))
    +++ "." +++
    slice value (Some (len value - decimal_places)) None.

(** Membership in a list literal of strings ([x in ["d", "b"]]). *)
Definition str_in (x : str) (l : list str) : bool := existsb (str_eqb x) l.

Definition unpack (bytes : list byte) (type : str) (dec_places : Z)
    (remove_lv : bool) (remove_spaces : bool) : result str :=
  if str_eqb (lower type) "ch" then
    Ok (if remove_lv
        then rstrip (replace (decode_cp037 bytes) [code "000"] "")
        else decode_cp037 bytes)
  else if str_eqb (lower type) "pd" || str_eqb (lower type) "pd+" then
    Ok (add_dec_places
          ((if negb (str_in (slice (hex bytes) (Some (-1)) None) ["d" : str; "b" : str])
            then "" else "-")
           +++ slice (hex bytes) None (Some (-1)))
          dec_places)
  else if str_eqb (lower type) "bi"
          || (str_eqb (lower type) "bi+"
              && str_le (hex bytes)
                        (slice HighestPositive None (Some (len bytes * 2)))) then
    n <- int_of_0x (hex bytes) ;;
    Ok (add_dec_places (str_of_int n) dec_places)
  else if str_eqb (lower type) "bi+" then
    n <- int_of_0x (hex bytes) ;;
    m <- int_of_0x (repeat_str (len bytes * 2) "f") ;;
    Ok (add_dec_places (str_of_int (n - m - 1)) dec_places)
  else if str_eqb (lower type) "zd" then
    Ok (add_dec_places
          (rstrip (replace (decode_cp037 bytes) [code "000"] ""))
          dec_places)
  else if str_eqb (lower type) "zd+" then
    Ok (add_dec_places
          ((if negb (str_eqb (slice (hex bytes) (Some (-2)) (Some (-1))) "d")
            then "" else "-")
           +++ decode_cp037 (slice bytes None (Some (-1)))
           +++ slice (hex bytes) (Some (-1)) None)
          dec_places)
  else if str_eqb (lower type) "hex" then
    Ok (hex bytes)
  else if str_eqb (lower type) "bit" then
    match bytes with
    | [] => Raise IndexError
    | b0 :: _ =>
        Ok (join ";" (zfill (replace (bin (byte_val b0)) "0b" "")
                            (len bytes * 8)))
    end
  else
    out <- print [ "---------------------------" +++ newline
                   +++ "Length & Type not supported" +++ newline +++ "Length: ";
                   str_of_int (len bytes);
                   newline +++ "Type: ";
                   type ] ;;
    SystemExit out.

Definition pack (value : str) (type : str) (dec_places : Z) (pad_length : Z)
    : result (list byte) :=
  if str_eqb (lower type) "ch" then
    result <- encode_cp037 value ;;
    Ok (ljust result pad_length x00)
  else if str_eqb (lower type) "pd" || str_eqb (lower type) "pd+" then
    let sign : str := if startswith value "-" then "d" else "c" in
    let value := replace (replace value "." "") "-" "" in
    let value := zfill value (pad_length * 2 - 1) in
    fromhex (value +++ sign)
  else if str_eqb (lower type) "bi" then
    n <- int_of_str value ;; struct_pack_Q n
  else if str_eqb (lower type) "bi+" then
    n <- int_of_str value ;; struct_pack_q n
  else if str_eqb (lower type) "zd" || str_eqb (lower type) "zd+" then
    let sign : str := if startswith value "-" then "}" else "{" in
    let value := replace (replace value "." "") "-" "" in
    let value := zfill value (pad_length - 1) +++ sign in
    encode_cp037 value
  else if str_eqb (lower type) "hex" then
    fromhex value
  else
    out <- print [ "Unsupported format:" : str; type ] ;;
    SystemExit out.

(** The tags each operation recognises, in lower case. *)
Definition unpack_tags : list str :=
  [ "ch" : str; "pd" : str; "pd+" : str; "bi" : str; "bi+" : str;
    "zd" : str; "zd+" : str; "hex" : str; "bit" : str ].

Definition pack_tags : list str :=
  [ "ch" : str; "pd" : str; "pd+" : str; "bi" : str; "bi+" : str;
    "zd" : str; "zd+" : str; "hex" : str ].

End Morph.

Import Py Morph.

(** ** Vocabulary of the properties *)

(** The unsigned big-endian value of a buffer. *)
Definition be_value (bs : list byte) : Z :=
  fold_left (fun acc b => 256 * acc + byte_val b) bs 0.

(** The most significant bit of the first byte. *)
Definition high_bit_set (bs : list byte) : bool :=
  match bs with
  | [] => false
  | b :: _ => Z.testbit (byte_val b) 7
  end.

(** Decode what encode produced, under one field descriptor. *)
Definition round_trip (v type : str) (dec_places pad_length : Z)
    (remove_lv remove_spaces : bool) : result str :=
  bs <- pack v type dec_places pad_length ;;
  unpack bs type dec_places remove_lv remove_spaces.

(** The tags whose encoder strips the decimal point. *)
Definition packed_zoned_tags : list str :=
  [ "pd" : str; "pd+" : str; "zd" : str; "zd+" : str ].

(** Decimal strings: an optional minus sign, then digits with a point
    before the last [d] of them when [d] is not zero. *)
Definition all_digits (s : str) : Prop := Forall (fun c => is_digit c = true) s.

Definition decimal_string (neg : bool) (digits : str) (d : Z) : str :=
  (if neg then "-" else "") +++ add_dec_places digits d.

(** Strings written with the characters of the cp037 code page only. *)
Definition in_cp037 (v : str) : Prop := Forall (fun c => 0 <= c <= 255) v.

(** Text as the decoder returns it when asked to strip: no null characters,
    no white space at the end. *)
Definition strip_text (v : str) : str := rstrip (replace v [code "000"] "").

Definition packed_tags : list str := [ "pd" : str; "pd+" : str ].

(** The sixteen characters [bytes.hex()] writes. *)
Definition lower_hex_digit (c : char) : Prop :=
  exists d, 0 <= d < 16 /\ c = hex_digit d.

Definition zoned_tags : list str := [ "zd" : str; "zd+" : str ].

(** The eight bits of a byte as text, most significant first. *)
Definition bits8 (b : byte) : str :=
  map (fun i => if Z.testbit (byte_val b) i then code "1" else code "0")
      [7; 6; 5; 4; 3; 2; 1; 0].

(** The two halves of a byte. *)
Definition high_nibble (b : byte) : Z := byte_val b / 16.
Definition low_nibble (b : byte) : Z := byte_val b mod 16.

(** ** Dispatch on the format tag *)

Lemma str_eqb_eq (a b : str) : str_eqb a b = true <-> a = b.
Proof.
  revert b. induction a as [| x a IH]; intros [| y b]; cbn [str_eqb];
    try (split; congruence).
  rewrite andb_true_iff, Z.eqb_eq, IH. split.
  - intros [-> ->]. reflexivity.
  - intros E. inversion E. split; reflexivity.
Qed.

Lemma str_eqb_neq (a b : str) : str_eqb a b = false <-> a <> b.
Proof.
  rewrite <- str_eqb_eq. destruct (str_eqb a b); split; congruence.
Qed.

Lemma unpack_lower (bytes : list byte) (t t' : str) (d : Z) (lv sp : bool) :
  lower t' = lower t -> In (lower t) unpack_tags ->
  unpack bytes t' d lv sp = unpack bytes t d lv sp.
Proof.
  intros Heq Hin. unfold unpack. rewrite Heq.
  unfold unpack_tags in Hin. simpl in Hin.
  repeat (destruct Hin as [<- | Hin]; [reflexivity |]).
  contradiction.
Qed.

Lemma pack_lower (value t t' : str) (d pad : Z) :
  lower t' = lower t -> In (lower t) pack_tags ->
  pack value t' d pad = pack value t d pad.
Proof.
  intros Heq Hin. unfold pack. rewrite Heq.
  unfold pack_tags in Hin. simpl in Hin.
  repeat (destruct Hin as [<- | Hin]; [reflexivity |]).
  contradiction.
Qed.

(** C8. Tag matching ignores case in both operations: a recognised tag and
    any upper/lower-case variant of it give the same result, whatever the
    other arguments are. *)
Theorem tag_matching_ignores_case :
  forall (t t' : str), lower t' = lower t ->
    (In (lower t) unpack_tags ->
     forall bytes d lv sp, unpack bytes t' d lv sp = unpack bytes t d lv sp)
    /\ (In (lower t) pack_tags ->
        forall value d pad, pack value t' d pad = pack value t d pad).
Proof.
  intros t t' Heq. split; intros Hin; intros.
  - now apply unpack_lower.
  - now apply pack_lower.
Qed.

Lemma tag_matching_ignores_case_witness :
  unpack [x12; x3d] "PD" 0 false false = unpack [x12; x3d] "pd" 0 false false
  /\ unpack [xff; x85] "Bi+" 0 false false = unpack [xff; x85] "bi+" 0 false false
  /\ pack "HELLO" "CH" 0 8 = pack "HELLO" "ch" 0 8.
Proof.
  split; [| split].
  - apply (proj1 (tag_matching_ignores_case "pd" "PD" eq_refl)).
    vm_compute. tauto.
  - apply (proj1 (tag_matching_ignores_case "bi+" "Bi+" eq_refl)).
    vm_compute. tauto.
  - apply (proj2 (tag_matching_ignores_case "ch" "CH" eq_refl)).
    vm_compute. tauto.
Defined.

(** ** Unrecognised tags *)

Lemma not_in_cons_str (x a : str) (l : list str) :
  ~ In x (a :: l) -> str_eqb x a = false /\ ~ In x l.
Proof.
  intros H. split.
  - apply str_eqb_neq. intros ->. apply H. now left.
  - intros Hin. apply H. now right.
Qed.

Ltac skip_tag H :=
  let E := fresh "E" in
  apply not_in_cons_str in H; destruct H as [E H]; rewrite E; clear E.

(** The decimal text of a number is plain ASCII, which every output
    writes. *)
Lemma decimal_digits_encodable (fuel : nat) (n : Z) (acc : str) :
  utf8_encodable acc = true ->
  utf8_encodable (decimal_digits fuel n acc) = true.
Proof.
  revert n acc. induction fuel as [| fuel IH]; intros n acc Hacc;
    cbn [decimal_digits]; [exact Hacc |].
  assert (Hd : utf8_encodable (digit_char (n mod 10) :: acc) = true).
  { cbn [utf8_encodable forallb]. fold (utf8_encodable acc). rewrite Hacc.
    pose proof (Z.mod_pos_bound n 10 ltac:(lia)) as Hm.
    unfold is_surrogate, digit_char, ord, chr.
    replace (55296 <=? 48 + n mod 10) with false
      by (symmetry; apply Z.leb_gt; lia).
    reflexivity. }
  destruct (n <? 10); [exact Hd | now apply IH].
Qed.

Lemma str_of_int_encodable (n : Z) : utf8_encodable (str_of_int n) = true.
Proof.
  unfold str_of_int.
  pose proof (decimal_digits_encodable
                (S (Z.to_nat (Z.log2 (Z.abs n)))) (Z.abs n) [] eq_refl) as H.
  destruct (n <? 0); [| exact H].
  cbn [utf8_encodable forallb]. fold (utf8_encodable
    (decimal_digits (S (Z.to_nat (Z.log2 (Z.abs n)))) (Z.abs n) [])).
  rewrite H. reflexivity.
Qed.

(** C2, as the code has it. A tag that neither operation recognises makes the
    call print a diagnostic and leave through [exit()]: no error value reaches
    the caller, and nothing else happens.  The tag is printed as it was
    given, so it has to be a text that the standard output writes. *)
Theorem unsupported_tag_exits :
  forall (type : str),
    utf8_encodable type = true ->
    (~ In (lower type) unpack_tags ->
     forall bytes d lv sp,
       unpack bytes type d lv sp =
       SystemExit
         (print_text
            [ "---------------------------" +++ newline
              +++ "Length & Type not supported" +++ newline +++ "Length: ";
              str_of_int (len bytes);
              newline +++ "Type: ";
              type ]))
    /\ (~ In (lower type) pack_tags ->
        forall value d pad,
          pack value type d pad =
          SystemExit (print_text [ "Unsupported format:" : str; type ])).
Proof.
  intros type Henc. split; intros H; intros.
  - unfold unpack, unpack_tags in *.
    do 9 skip_tag H. unfold print. cbn [forallb].
    rewrite str_of_int_encodable, Henc. reflexivity.
  - unfold pack, pack_tags in *.
    do 8 skip_tag H. unfold print. cbn [forallb].
    rewrite Henc. reflexivity.
Qed.

Lemma unsupported_tag_exits_witness :
  terminates_process (unpack [xf1; xf2] "xx" 0 false false)
  /\ terminates_process (pack "12" "xx" 0 2).
Proof.
  split.
  - eexists.
    apply (proj1 (unsupported_tag_exits "xx" eq_refl)).
    vm_compute. intuition discriminate.
  - eexists.
    apply (proj2 (unsupported_tag_exits "xx" eq_refl)).
    vm_compute. intuition discriminate.
Defined.

(** C2 as stated fails: with the unrecognised tag ["xx"] both operations end
    the process, and the caller receives no error. *)
Lemma unsupported_tag_is_not_an_error_value :
  (terminates_process (unpack [xf1; xf2] "xx" 0 false false)
   /\ ~ returns_error (unpack [xf1; xf2] "xx" 0 false false))
  /\ (terminates_process (pack "12" "xx" 0 2)
      /\ ~ returns_error (pack "12" "xx" 0 2)).
Proof.
  split; split.
  - eexists. vm_compute. reflexivity.
  - intros [e He]. vm_compute in He. discriminate.
  - eexists. vm_compute. reflexivity.
  - intros [e He]. vm_compute in He. discriminate.
Qed.

(** ** Worked encodings *)

(** C4. Packed-decimal encode of "12345" with pad length 3 is exactly the
    bytes 12 34 5c, and of "-12345" exactly 12 34 5d. *)
Theorem pack_packed_12345 :
  forall d : Z,
    pack "12345" "pd" d 3 = Ok [x12; x34; x5c]
    /\ pack "-12345" "pd" d 3 = Ok [x12; x34; x5d]
    /\ pack "12345" "pd+" d 3 = Ok [x12; x34; x5c]
    /\ pack "-12345" "pd+" d 3 = Ok [x12; x34; x5d].
Proof.
  intros d. repeat split; reflexivity.
Qed.

(** C5, as the code has it. Zoned and signed-zoned encode of "-12345" with
    pad length 6 gives six bytes: the five digits "12345" followed by the
    negative terminal zone character (the closing brace, byte d0); no digit is
    fused into that last byte. *)
Theorem pack_zoned_minus_12345 :
  forall d : Z,
    pack "-12345" "zd" d 6 = Ok [xf1; xf2; xf3; xf4; xf5; xd0]
    /\ pack "-12345" "zd+" d 6 = Ok [xf1; xf2; xf3; xf4; xf5; xd0]
    /\ len [xf1; xf2; xf3; xf4; xf5; xd0] = 6
    /\ decode_cp037 [xf1; xf2; xf3; xf4; xf5; xd0] = "12345" +++ "}".
Proof.
  intros d. repeat split; reflexivity.
Qed.

(** C5 as stated fails: the first five characters of the buffer are "12345",
    not "00123". *)
Lemma pack_zoned_first_five_not_00123 :
  ~ (exists bs, pack "-12345" "zd" 0 6 = Ok bs
                /\ slice (decode_cp037 bs) None (Some 5) = lit "00123")
  /\ ~ (exists bs, pack "-12345" "zd+" 0 6 = Ok bs
                   /\ slice (decode_cp037 bs) None (Some 5) = lit "00123").
Proof.
  split; intros [bs [Hp Hs]]; vm_compute in Hp; inversion Hp; subst bs;
    vm_compute in Hs; discriminate.
Qed.

(** ** Slices *)

Lemma len_nonneg {A : Type} (l : list A) : 0 <= len l.
Proof. unfold len. lia. Qed.

Lemma slice_index_range (n i : Z) : 0 <= n -> 0 <= slice_index n i <= n.
Proof. unfold slice_index. destruct (i <? 0) eqn:E; lia. Qed.

Lemma slice_to {A : Type} (l : list A) (j : Z) :
  slice l None (Some j) = firstn (Z.to_nat (slice_index (len l) j)) l.
Proof.
  unfold slice. rewrite Z.sub_0_r. reflexivity.
Qed.

Lemma slice_from {A : Type} (l : list A) (i : Z) :
  slice l (Some i) None = skipn (Z.to_nat (slice_index (len l) i)) l.
Proof.
  unfold slice.
  pose proof (slice_index_range (len l) i (len_nonneg l)) as Hr.
  apply firstn_all2. rewrite length_skipn. unfold len in *. lia.
Qed.

(** ** Decimal-point insertion *)

Lemma add_dec_places_0 (value : str) : add_dec_places value 0 = value.
Proof. reflexivity. Qed.

Lemma add_dec_places_split (value : str) (n : Z) :
  n <> 0 ->
  add_dec_places value n =
  firstn (Z.to_nat (slice_index (len value) (len value - n))) value
  ++ code "." :: skipn (Z.to_nat (slice_index (len value) (len value - n))) value.
Proof.
  intros Hn. unfold add_dec_places.
  apply Z.eqb_neq in Hn. rewrite Hn.
  rewrite slice_to, slice_from. reflexivity.
Qed.

(** C6, as the code has it. When the decimal-place count [n] exceeds the
    length [L] of the digit string, point insertion raises nothing: it
    returns the digit string with the point inserted at index
    [max 0 (2 * L - n)]. *)
Theorem add_dec_places_beyond_length :
  forall (value : str) (n : Z),
    len value < n ->
    add_dec_places value n =
    firstn (Z.to_nat (2 * len value - n)) value
    ++ code "." :: skipn (Z.to_nat (2 * len value - n)) value.
Proof.
  intros value n Hn.
  pose proof (len_nonneg value) as Hl.
  rewrite add_dec_places_split by lia.
  unfold slice_index.
  replace (len value - n <? 0) with true by (symmetry; apply Z.ltb_lt; lia).
  replace (Z.to_nat (Z.max 0 (len value - n + len value)))
    with (Z.to_nat (2 * len value - n)) by lia.
  reflexivity.
Qed.

Lemma add_dec_places_beyond_length_witness :
  add_dec_places "1234" 5 = "123" +++ "." +++ "4".
Proof.
  apply (add_dec_places_beyond_length "1234" 5).
  vm_compute. reflexivity.
Defined.

(** C6 as stated fails: decoding the two zoned digits "12" with five decimal
    places returns the string ".12" and raises no error. *)
Lemma decimal_places_overflow_returns_a_string :
  unpack [xf1; xf2] "zd" 5 false false = Ok (lit ".12")
  /\ ~ returns_error (unpack [xf1; xf2] "zd" 5 false false).
Proof.
  split.
  - reflexivity.
  - intros [e He]. vm_compute in He. discriminate.
Qed.

(** ** Text *)

Lemma byte_val_byte_of (n : Z) : 0 <= n < 256 -> byte_val (byte_of n) = n.
Proof.
  intros Hn. unfold byte_val, byte_of.
  destruct (Byte.of_N (Z.to_N n)) as [b |] eqn:E.
  - apply Byte.to_of_N in E. rewrite E. lia.
  - apply Byte.of_N_None_iff in E. lia.
Qed.

Lemma cp037_encode_char_total (c : char) :
  0 <= c <= 255 ->
  exists b, cp037_encode_char c = Some b /\ cp037_decode_byte b = c.
Proof.
  intros Hc. rewrite <- (byte_val_byte_of c) by lia.
  destruct (byte_of c); eexists; split; vm_compute; reflexivity.
Qed.

Lemma table_index_in (n i : Z) (table : list Z) (j : Z) :
  table_index n i table = Some j -> In n table.
Proof.
  revert i. induction table as [| m table IH]; intros i H; [discriminate |].
  cbn [table_index] in H. destruct (m =? n) eqn:E.
  - apply Z.eqb_eq in E. now left.
  - right. now apply (IH (i + 1)).
Qed.

Lemma cp037_encode_char_range (c : char) (b : byte) :
  cp037_encode_char c = Some b -> 0 <= c <= 255.
Proof.
  unfold cp037_encode_char. intros H.
  destruct (table_index (ord c) 0 cp037_decoding_table) as [i |] eqn:E;
    [| discriminate].
  apply table_index_in in E.
  assert (Ht : forallb (fun m => (0 <=? m) && (m <=? 255)) cp037_decoding_table
               = true) by (vm_compute; reflexivity).
  rewrite forallb_forall in Ht. apply Ht in E.
  apply andb_prop in E. destruct E as [E1 E2].
  apply Z.leb_le in E1, E2. unfold ord in *. lia.
Qed.

Lemma encode_cp037_total (s : str) :
  in_cp037 s ->
  exists bs, encode_cp037 s = Ok bs
             /\ List.length bs = List.length s /\ decode_cp037 bs = s.
Proof.
  induction 1 as [| c s Hc _ IH].
  - exists []. repeat split.
  - destruct IH as [bs [Hbs [Hlen Hdec]]].
    destruct (cp037_encode_char_total c Hc) as [b [Hb Hd]].
    exists (b :: bs). cbn [encode_cp037]. rewrite Hb, Hbs. cbn [bind].
    split; [reflexivity |]. split.
    + cbn [List.length]. now rewrite Hlen.
    + unfold decode_cp037 in *. cbn [map]. now rewrite Hd, Hdec.
Qed.

Lemma encode_cp037_outside (s : str) :
  ~ in_cp037 s -> encode_cp037 s = Raise UnicodeEncodeError.
Proof.
  induction s as [| c s IH]; intros Hn.
  - exfalso. apply Hn. constructor.
  - cbn [encode_cp037].
    destruct (cp037_encode_char c) as [b |] eqn:E; [| reflexivity].
    apply cp037_encode_char_range in E.
    rewrite IH; [reflexivity |].
    intros Hs. apply Hn. now constructor.
Qed.

(** C10, as the code has it. Text encode never truncates: for a value written
    with characters of the cp037 code page, the buffer returned for tag "ch"
    has length [max pad_length (len encoded)], starts with the cp037 encoding
    of the value, and holds null bytes after it.  A value with any other
    character is refused with [UnicodeEncodeError], and no buffer is
    returned. *)
Theorem pack_text_never_truncates :
  forall (value : str) (d pad_length : Z),
    (in_cp037 value ->
     exists encoded out,
       encode_cp037 value = Ok encoded
       /\ pack value "ch" d pad_length = Ok out
       /\ len out = Z.max pad_length (len encoded)
       /\ firstn (List.length encoded) out = encoded
       /\ skipn (List.length encoded) out
          = repeat x00 (Z.to_nat (pad_length - len encoded)))
    /\ (~ in_cp037 value ->
        pack value "ch" d pad_length = Raise UnicodeEncodeError).
Proof.
  intros value d pad.
  change (pack value "ch" d pad)
    with (result <- encode_cp037 value ;; Ok (ljust result pad x00)).
  split; intros Hv.
  - destruct (encode_cp037_total value Hv) as [enc [Henc _]].
    exists enc, (ljust enc pad x00).
    split; [exact Henc |].
    split; [rewrite Henc; reflexivity |].
    unfold ljust. split; [| split].
    + unfold len. rewrite length_app, repeat_length. lia.
    + rewrite firstn_app, Nat.sub_diag, firstn_all. simpl. apply app_nil_r.
    + rewrite skipn_app, Nat.sub_diag, skipn_all. reflexivity.
  - rewrite (encode_cp037_outside value Hv). reflexivity.
Qed.

Lemma pack_text_never_truncates_witness :
  exists encoded out,
    encode_cp037 "HELLO" = Ok encoded
    /\ pack "HELLO" "ch" 0 8 = Ok out
    /\ len out = Z.max 8 (len encoded)
    /\ firstn (List.length encoded) out = encoded
    /\ skipn (List.length encoded) out
       = repeat x00 (Z.to_nat (8 - len encoded)).
Proof.
  apply (proj1 (pack_text_never_truncates "HELLO" 0 8)).
  repeat constructor; vm_compute; congruence.
Defined.

(** C10 as stated fails: the euro sign (U+20AC) is a string value, it has no
    place in the cp037 code page, and text encode raises [UnicodeEncodeError]
    instead of returning a buffer. *)
Lemma pack_text_refuses_euro_sign :
  pack [8364] "ch" 0 0 = Raise UnicodeEncodeError
  /\ ~ returns_value (pack [8364] "ch" 0 0).
Proof.
  split.
  - reflexivity.
  - intros [out H]. vm_compute in H. discriminate.
Qed.

(** ** Hexadecimal text *)

Lemma fromhex_hex_cons (b : byte) (rest : str) :
  fromhex (hex [b] ++ rest) = (bs <- fromhex rest ;; Ok (b :: bs)).
Proof. destruct b; reflexivity. Qed.

Lemma fromhex_hex (bs : list byte) : fromhex (hex bs) = Ok bs.
Proof.
  induction bs as [| b bs IH].
  - reflexivity.
  - change (hex (b :: bs)) with (hex [b] ++ hex bs).
    rewrite fromhex_hex_cons, IH. reflexivity.
Qed.

(** C7. Decoding a buffer with the hex format and encoding the string
    obtained with the hex format gives the buffer back. *)
Theorem hex_decode_encode :
  forall (buf : list byte) (d d' pad : Z) (lv sp : bool),
    (s <- unpack buf "hex" d lv sp ;; pack s "hex" d' pad) = Ok buf.
Proof.
  intros. change (unpack buf "hex" d lv sp) with (Ok (hex buf)).
  cbn [bind]. change (pack (hex buf) "hex" d' pad) with (fromhex (hex buf)).
  apply fromhex_hex.
Qed.

(** ** Binary integers *)

Lemma byte_val_range (b : byte) : 0 <= byte_val b < 256.
Proof. destruct b; vm_compute; split; congruence. Qed.

Lemma hex_value_hex_digit (d : Z) :
  0 <= d < 16 -> hex_value (hex_digit d) = Some d.
Proof.
  intros Hd.
  assert (H : In d [0; 1; 2; 3; 4; 5; 6; 7; 8; 9; 10; 11; 12; 13; 14; 15])
    by (simpl; lia).
  simpl in H.
  repeat (destruct H as [<- | H]; [reflexivity |]). contradiction.
Qed.

Lemma nibbles_range (b : byte) :
  0 <= byte_val b / 16 < 16 /\ 0 <= byte_val b mod 16 < 16.
Proof.
  pose proof (byte_val_range b) as H.
  split.
  - split; [apply Z.div_pos; lia | apply Z.div_lt_upper_bound; lia].
  - apply Z.mod_pos_bound. lia.
Qed.

Lemma parse_hex_hex_cons (b : byte) (acc : Z) (rest : str) :
  parse_hex acc (hex [b] ++ rest) = parse_hex (256 * acc + byte_val b) rest.
Proof.
  destruct (nibbles_range b) as [Hhi Hlo].
  cbn [hex app parse_hex].
  rewrite (hex_value_hex_digit _ Hhi), (hex_value_hex_digit _ Hlo).
  f_equal. rewrite (Z.div_mod (byte_val b) 16) at 3 by lia. ring.
Qed.

Lemma parse_hex_hex (bs : list byte) (acc : Z) :
  parse_hex acc (hex bs) = Some (fold_left (fun a b => 256 * a + byte_val b) bs acc).
Proof.
  revert acc. induction bs as [| b bs IH]; intros acc.
  - reflexivity.
  - change (hex (b :: bs)) with (hex [b] ++ hex bs).
    rewrite parse_hex_hex_cons, IH. reflexivity.
Qed.

Lemma int_of_0x_hex (bs : list byte) :
  bs <> [] -> int_of_0x (hex bs) = Ok (be_value bs).
Proof.
  intros Hne. destruct bs as [| b bs]; [congruence |].
  unfold int_of_0x.
  rewrite parse_hex_hex. reflexivity.
Qed.

Lemma parse_hex_fs (k : nat) (acc : Z) :
  parse_hex acc (repeat (code "f") k) = Some ((acc + 1) * 16 ^ Z.of_nat k - 1).
Proof.
  revert acc. induction k as [| k IH]; intros acc.
  - simpl. f_equal. lia.
  - cbn [repeat parse_hex].
    change (hex_value (code "f")) with (Some 15). cbv iota beta.
    rewrite IH. f_equal.
    rewrite Nat2Z.inj_succ, Z.pow_succ_r by lia. lia.
Qed.

Lemma repeat_str_char (n : Z) (c : char) :
  repeat_str n [c] = repeat c (Z.to_nat n).
Proof.
  unfold repeat_str. induction (Z.to_nat n) as [| k IH]; simpl; congruence.
Qed.

Lemma int_of_0x_fs (bs : list byte) :
  bs <> [] ->
  int_of_0x (repeat_str (len bs * 2) "f") = Ok (2 ^ (8 * len bs) - 1).
Proof.
  intros Hne.
  change (lit "f") with [code "f"]. rewrite repeat_str_char.
  assert (Hpos : 0 < len bs)
    by (destruct bs; [congruence | unfold len; simpl; lia]).
  unfold int_of_0x.
  destruct (repeat (code "f") (Z.to_nat (len bs * 2))) eqn:E.
  - apply (f_equal (@List.length _)) in E. rewrite repeat_length in E.
    simpl in E. lia.
  - rewrite <- E, parse_hex_fs. f_equal. f_equal.
    rewrite Z2Nat.id by lia.
    replace (8 * len bs) with (4 * (len bs * 2)) by lia.
    rewrite (Z.pow_mul_r 2 4) by lia.
    change (2 ^ 4) with 16. lia.
Qed.

Lemma fold_be_value (bs : list byte) (acc : Z) :
  fold_left (fun a b => 256 * a + byte_val b) bs acc
  = acc * 256 ^ len bs + be_value bs.
Proof.
  unfold be_value, len. revert acc.
  induction bs as [| b bs IH]; intros acc.
  - simpl. lia.
  - cbn [fold_left List.length].
    rewrite IH, (IH (256 * 0 + byte_val b)).
    rewrite Nat2Z.inj_succ, Z.pow_succ_r by lia. ring.
Qed.

Lemma be_value_cons (b : byte) (bs : list byte) :
  be_value (b :: bs) = byte_val b * 256 ^ len bs + be_value bs.
Proof.
  unfold be_value at 1. cbn [fold_left].
  rewrite fold_be_value. f_equal.
Qed.

Lemma be_value_range (bs : list byte) : 0 <= be_value bs < 256 ^ len bs.
Proof.
  induction bs as [| b bs IH].
  - vm_compute. split; congruence.
  - rewrite be_value_cons.
    pose proof (byte_val_range b) as Hb.
    replace (len (b :: bs)) with (Z.succ (len bs))
      by (unfold len; cbn [List.length]; lia).
    rewrite Z.pow_succ_r by apply len_nonneg.
    nia.
Qed.

Lemma high_bit_set_cons (b : byte) (bs : list byte) :
  high_bit_set (b :: bs) = (128 <=? byte_val b).
Proof. destruct b; reflexivity. Qed.

(** The sign bit of the buffer is the top bit of its big-endian value. *)
Lemma high_bit_set_value (bs : list byte) :
  bs <> [] ->
  (be_value bs <=? 2 ^ (8 * len bs - 1) - 1) = negb (high_bit_set bs).
Proof.
  intros Hne. destruct bs as [| b bs]; [congruence |].
  rewrite high_bit_set_cons, be_value_cons.
  pose proof (byte_val_range b) as Hb.
  pose proof (be_value_range bs) as Hv.
  pose proof (len_nonneg bs) as Hl.
  replace (8 * len (b :: bs) - 1) with (7 + 8 * len bs)
    by (unfold len; cbn [List.length]; lia).
  rewrite Z.pow_add_r, (Z.pow_mul_r 2 8) by lia.
  change (2 ^ 7) with 128. change (2 ^ 8) with 256.
  destruct (128 <=? byte_val b) eqn:E; cbn [negb].
  - apply Z.leb_le in E. apply Z.leb_gt. nia.
  - apply Z.leb_gt in E. apply Z.leb_le. nia.
Qed.

Lemma ord_hex_digit_le_f (d : Z) :
  0 <= d < 16 -> ord (hex_digit d) <= ord (code "f").
Proof.
  intros Hd.
  assert (H : In d [0; 1; 2; 3; 4; 5; 6; 7; 8; 9; 10; 11; 12; 13; 14; 15])
    by (simpl; lia).
  simpl in H.
  repeat (destruct H as [<- | H]; [vm_compute; congruence |]). contradiction.
Qed.

Lemma str_le_cons_le (x y : char) (a b : str) :
  ord x <= ord y -> str_le a b = true -> str_le (x :: a) (y :: b) = true.
Proof.
  intros Hxy Hab. cbn [str_le].
  destruct (ord x <? ord y) eqn:E1; [reflexivity |].
  destruct (ord y <? ord x) eqn:E2; [apply Z.ltb_lt in E2; lia | exact Hab].
Qed.

Lemma str_le_hex_fs (bs : list byte) :
  str_le (hex bs) (repeat (code "f") (2 * List.length bs)) = true.
Proof.
  induction bs as [| b bs IH].
  - reflexivity.
  - destruct (nibbles_range b) as [Hhi Hlo].
    cbn [hex List.length].
    replace (2 * S (List.length bs))%nat with (S (S (2 * List.length bs))) by lia.
    cbn [repeat].
    apply str_le_cons_le; [now apply ord_hex_digit_le_f |].
    apply str_le_cons_le; [now apply ord_hex_digit_le_f | exact IH].
Qed.

Lemma str_le_threshold (b : byte) (rest fs : str) :
  str_le rest fs = true ->
  str_le (hex [b] ++ rest) (code "7" :: code "f" :: fs)
  = negb (128 <=? byte_val b).
Proof.
  intros H. destruct b; first [reflexivity | exact H].
Qed.

Lemma HighestPositive_prefix (k : nat) :
  (k <= 9)%nat ->
  slice HighestPositive None (Some (Z.of_nat (S k) * 2))
  = code "7" :: code "f" :: repeat (code "f") (2 * k).
Proof.
  intros Hk.
  do 10 (destruct k as [| k]; [reflexivity |]). lia.
Qed.

Lemma unpack_signed_binary_eq (bs : list byte) (d : Z) (lv sp : bool) :
  unpack bs "bi+" d lv sp =
  if str_le (hex bs) (slice HighestPositive None (Some (len bs * 2)))
  then n <- int_of_0x (hex bs) ;; Ok (add_dec_places (str_of_int n) d)
  else n <- int_of_0x (hex bs) ;;
       m <- int_of_0x (repeat_str (len bs * 2) "f") ;;
       Ok (add_dec_places (str_of_int (n - m - 1)) d).
Proof. reflexivity. Qed.

(** Signed-binary decode of a buffer of one to ten bytes is the two's
    complement reading: the big-endian value when the sign bit is clear, and
    that value minus [2 ^ (8 * n)] when it is set. *)
Lemma unpack_signed_binary_upto_10 (bs : list byte) (d : Z) (lv sp : bool) :
  bs <> [] -> len bs <= 10 ->
  unpack bs "bi+" d lv sp =
  Ok (add_dec_places
        (str_of_int
           (if be_value bs <=? 2 ^ (8 * len bs - 1) - 1
            then be_value bs
            else be_value bs - 2 ^ (8 * len bs)))
        d)
  /\ (be_value bs <=? 2 ^ (8 * len bs - 1) - 1) = negb (high_bit_set bs).
Proof.
  intros Hne Hlen. split; [| now apply high_bit_set_value].
  rewrite unpack_signed_binary_eq.
  rewrite (int_of_0x_hex bs Hne), (int_of_0x_fs bs Hne).
  rewrite (high_bit_set_value bs Hne).
  destruct bs as [| b bs]; [congruence |].
  assert (Hk : (List.length bs <= 9)%nat)
    by (unfold len in Hlen; cbn [List.length] in Hlen; lia).
  change (len (b :: bs) * 2) with (Z.of_nat (S (List.length bs)) * 2).
  rewrite (HighestPositive_prefix _ Hk).
  change (hex (b :: bs)) with (hex [b] ++ hex bs).
  rewrite (str_le_threshold b _ _ (str_le_hex_fs bs)).
  rewrite high_bit_set_cons.
  destruct (128 <=? byte_val b); cbn [negb bind].
  - do 3 f_equal. lia.
  - reflexivity.
Qed.

(** C3, where the code departs from it. An eleven-byte buffer whose first
    ten bytes are 7f ff .. ff has its sign bit clear and the big-endian value
    154742504910672534362390272, yet signed-binary decode returns that value
    minus [2 ^ 88]: the threshold constant is ten bytes long. *)
Theorem unpack_signed_binary_11_bytes :
  let buf := [x7f; xff; xff; xff; xff; xff; xff; xff; xff; xff; x00] in
  high_bit_set buf = false
  /\ be_value buf = 154742504910672534362390272
  /\ unpack buf "bi+" 0 false false = Ok (lit "-154742504910672534362390784")
  /\ 154742504910672534362390272 - 2 ^ 88 = -154742504910672534362390784.
Proof. repeat split. Qed.

(** The two boundary values of the eight-byte signed format survive encoding
    and decoding. *)
Lemma signed_binary_boundaries :
  round_trip "9223372036854775807" "bi+" 0 0 false false
  = Ok (lit "9223372036854775807")
  /\ round_trip "-9223372036854775808" "bi+" 0 0 false false
     = Ok (lit "-9223372036854775808").
Proof. split; reflexivity. Qed.

(** ** The decimal point in the encoder *)

Lemma replace_char (s : str) (c : char) :
  replace s [c] [] = filter (fun x => negb (Z.eqb x c)) s.
Proof.
  unfold replace.
  induction s as [| x s IH].
  - reflexivity.
  - cbn [replace_from startswith filter List.length Nat.sub].
    destruct s; destruct (Z.eqb x c); cbn [andb negb app];
      rewrite ?IH; reflexivity.
Qed.

Lemma pack_stripped (value value' type : str) (d d' pad : Z) :
  In (lower type) packed_zoned_tags ->
  startswith value' "-" = startswith value "-" ->
  replace value' "." "" = replace value "." "" ->
  pack value' type d' pad = pack value type d pad.
Proof.
  intros Hin Hs Hr. unfold pack.
  unfold packed_zoned_tags in Hin. simpl in Hin.
  repeat (destruct Hin as [<- | Hin];
          [cbn [str_eqb orb]; cbv beta iota zeta; rewrite Hs, Hr; reflexivity |]).
  contradiction.
Qed.

(** C9, as the code has it. The encoder never looks at the decimal-place
    count; and in the packed and zoned formats every point of the value is
    dropped wherever it stands, so that two values with the same leading
    sign test and the same text once the points are removed encode alike. *)
Theorem pack_ignores_dec_places :
  forall (value type : str) (d1 d2 pad : Z),
    pack value type d1 pad = pack value type d2 pad
    /\ (In (lower type) packed_zoned_tags ->
        forall value' : str,
          startswith value' "-" = startswith value "-" ->
          replace value' "." "" = replace value "." "" ->
          pack value' type d1 pad = pack value type d2 pad).
Proof.
  intros. split.
  - reflexivity.
  - intros Hin value' Hs Hr. now apply pack_stripped.
Qed.

Lemma pack_ignores_dec_places_witness :
  pack "123.45" "pd" 2 3 = pack "123.45" "pd" 0 3
  /\ pack "1.2.345" "pd" 2 3 = pack "12345" "pd" 0 3
  /\ pack "-12.345" "zd+" 1 6 = pack "-1234.5" "zd+" 3 6.
Proof.
  split; [| split].
  - apply (proj1 (pack_ignores_dec_places "123.45" "pd" 2 0 3)).
  - apply (proj2 (pack_ignores_dec_places "12345" "pd" 2 0 3)).
    + vm_compute. tauto.
    + vm_compute. reflexivity.
    + vm_compute. reflexivity.
  - apply (proj2 (pack_ignores_dec_places "-1234.5" "zd+" 1 3 6)).
    + vm_compute. tauto.
    + vm_compute. reflexivity.
    + vm_compute. reflexivity.
Defined.

(** C9 as stated fails on its last clause: the text format keeps the point
    (byte 4b), and the binary and hex formats refuse a value that has one.
    Where the point is stripped, one position still shows in the result: a
    point before the minus sign hides the sign from the encoder. *)
Lemma pack_point_not_always_stripped :
  pack "1.5" "ch" 0 0 = Ok [xf1; x4b; xf5]
  /\ decode_cp037 [xf1; x4b; xf5] = lit "1.5"
  /\ pack "15" "ch" 0 0 = Ok [xf1; xf5]
  /\ pack "1.5" "bi" 0 0 = Raise ValueError
  /\ pack "1.5" "bi+" 0 0 = Raise ValueError
  /\ pack "1.5" "hex" 0 0 = Raise ValueError
  /\ pack "1.5" "ch" 0 0 <> pack "15" "ch" 0 0
  /\ pack ".-5" "pd" 0 1 = Ok [x5c]
  /\ pack "-.5" "pd" 0 1 = Ok [x5d].
Proof. repeat split. vm_compute. discriminate. Qed.

(** ** Round trips *)

(** *** Text *)

Lemma filter_all {A : Type} (f : A -> bool) (l : list A) :
  Forall (fun x => f x = true) l -> filter f l = l.
Proof.
  induction 1 as [| x l Hx _ IH]; simpl; [| rewrite Hx, IH]; reflexivity.
Qed.

Lemma filter_none {A : Type} (f : A -> bool) (l : list A) :
  Forall (fun x => f x = false) l -> filter f l = [].
Proof.
  induction 1 as [| x l Hx _ IH]; simpl; [| rewrite Hx, IH]; reflexivity.
Qed.

Lemma lstrip_by_keep (f : char -> bool) (c : char) (s : str) :
  f c = false -> lstrip_by f (c :: s) = c :: s.
Proof. intros H. simpl. now rewrite H. Qed.

Lemma rstrip_by_keep (f : char -> bool) (s : str) (c : char) :
  f c = false -> rstrip_by f (s ++ [c]) = s ++ [c].
Proof.
  intros H. unfold rstrip_by.
  rewrite rev_app_distr. cbn [rev app].
  rewrite lstrip_by_keep by exact H.
  change (c :: rev s) with ([c] ++ rev s).
  rewrite rev_app_distr, rev_involutive. reflexivity.
Qed.

Lemma rstrip_by_none (f : char -> bool) (s : str) :
  Forall (fun c => f c = false) s -> rstrip_by f s = s.
Proof.
  intros H. destruct s as [| c s] using rev_ind; [reflexivity |].
  apply Forall_app in H. destruct H as [_ H]. inversion H; subst.
  now apply rstrip_by_keep.
Qed.

Lemma decode_encode_cp037 (v : str) (k : nat) :
  in_cp037 v ->
  exists enc,
    encode_cp037 v = Ok enc
    /\ List.length enc = List.length v
    /\ decode_cp037 (enc ++ repeat x00 k) = v ++ repeat (code "000") k.
Proof.
  intros Hv.
  destruct (encode_cp037_total v Hv) as [enc [Henc [Hlen Hdec]]].
  exists enc. split; [exact Henc |]. split; [exact Hlen |].
  unfold decode_cp037 in *. rewrite map_app, Hdec. f_equal.
  induction k as [| k IH]; [reflexivity |].
  cbn [repeat map]. rewrite IH. reflexivity.
Qed.

Lemma round_trip_text (v : str) (d pad : Z) (sp : bool) :
  in_cp037 v ->
  round_trip v "ch" d pad true sp = Ok (strip_text v).
Proof.
  intros Hv.
  destruct (decode_encode_cp037 v (Z.to_nat (pad - len v)) Hv)
    as [enc (Henc & Hlen & Hdec)].
  unfold round_trip.
  change (pack v "ch" d pad)
    with (result <- encode_cp037 v ;; Ok (ljust result pad x00)).
  rewrite Henc. cbn [bind].
  change (unpack (ljust enc pad x00) "ch" d true sp)
    with (Ok (rstrip (replace (decode_cp037 (ljust enc pad x00)) [code "000"] []))).
  f_equal. unfold strip_text. f_equal.
  unfold ljust, len. rewrite Hlen. fold (len v). rewrite Hdec.
  change (lit "") with (@nil char).
  rewrite !replace_char, filter_app.
  rewrite (filter_none _ (repeat _ _)); [apply app_nil_r |].
  apply Forall_forall. intros x Hx. apply repeat_spec in Hx. now subst x.
Qed.

Lemma round_trip_text_padded (v : str) (d pad : Z) (sp : bool) :
  in_cp037 v ->
  round_trip v "ch" d pad false sp
  = Ok (v ++ repeat (code "000") (Z.to_nat (pad - len v))).
Proof.
  intros Hv.
  destruct (decode_encode_cp037 v (Z.to_nat (pad - len v)) Hv)
    as [enc (Henc & Hlen & Hdec)].
  unfold round_trip.
  change (pack v "ch" d pad)
    with (result <- encode_cp037 v ;; Ok (ljust result pad x00)).
  rewrite Henc. cbn [bind].
  change (unpack (ljust enc pad x00) "ch" d false sp)
    with (Ok (decode_cp037 (ljust enc pad x00))).
  f_equal. unfold ljust, len. rewrite Hlen. fold (len v). exact Hdec.
Qed.

Lemma is_digit_cases (c : char) :
  is_digit c = true -> In c [48; 49; 50; 51; 52; 53; 54; 55; 56; 57].
Proof.
  unfold is_digit, ord. intros H.
  apply andb_prop in H. destruct H as [H1 H2].
  apply Z.leb_le in H1, H2. simpl. lia.
Qed.

Ltac digit_cases H :=
  apply is_digit_cases in H; simpl in H;
  repeat (destruct H as [<- | H]; [| try contradiction]).

Lemma digit_not_space (c : char) : is_digit c = true -> isspace c = false.
Proof.
  intros H. digit_cases H; reflexivity.
Qed.

Lemma digit_not_punct (c : char) :
  is_digit c = true ->
  c <> (code ".") /\ c <> (code "-") /\ c <> (code "+") /\ c <> (code "000").
Proof.
  intros H. digit_cases H; repeat split; intros E; vm_compute in E;
    discriminate.
Qed.

Lemma digit_in_cp037 (ds : str) : all_digits ds -> in_cp037 ds.
Proof.
  intros H. eapply Forall_impl; [| exact H].
  intros c Hc. apply is_digit_cases in Hc. simpl in Hc. lia.
Qed.

Lemma Forall_add_dec_places (P : char -> Prop) (value : str) (d : Z) :
  Forall P value -> P (code ".") -> Forall P (add_dec_places value d).
Proof.
  intros Hv Hp. destruct (Z.eq_dec d 0) as [-> | Hd]; [exact Hv |].
  rewrite add_dec_places_split by exact Hd.
  set (k := Z.to_nat _).
  rewrite <- (firstn_skipn k value) in Hv.
  apply Forall_app in Hv. destruct Hv as [Hf Hs].
  apply Forall_app. split; [exact Hf |].
  constructor; [exact Hp | exact Hs].
Qed.

Lemma Forall_decimal_string (P : char -> Prop) (neg : bool) (ds : str) (d : Z) :
  Forall P ds -> P (code ".") -> P (code "-") -> Forall P (decimal_string neg ds d).
Proof.
  intros Hv Hp Hm. unfold decimal_string.
  apply Forall_app. split.
  - destruct neg; repeat constructor. exact Hm.
  - now apply Forall_add_dec_places.
Qed.

Lemma strip_text_decimal (neg : bool) (ds : str) (d : Z) :
  all_digits ds ->
  strip_text (decimal_string neg ds d) = decimal_string neg ds d.
Proof.
  intros Hds. unfold strip_text, rstrip.
  change (lit "") with (@nil char). rewrite replace_char.
  rewrite filter_all.
  - apply rstrip_by_none.
    apply Forall_decimal_string; [| reflexivity | reflexivity].
    eapply Forall_impl; [| exact Hds]. apply digit_not_space.
  - apply Forall_decimal_string; [| reflexivity | reflexivity].
    eapply Forall_impl; [| exact Hds].
    intros c Hc. apply digit_not_punct in Hc.
    destruct Hc as (_ & _ & _ & Hc).
    apply negb_true_iff. now apply Z.eqb_neq.
Qed.

(** *** Packed decimal *)

Lemma is_c_space_hex_digit (d : Z) :
  0 <= d < 16 -> is_c_space (hex_digit d) = false.
Proof.
  intros Hd.
  assert (H : In d [0; 1; 2; 3; 4; 5; 6; 7; 8; 9; 10; 11; 12; 13; 14; 15])
    by (simpl; lia).
  simpl in H.
  repeat (destruct H as [<- | H]; [reflexivity |]). contradiction.
Qed.

Lemma fromhex_pair (h l : Z) (rest : str) :
  0 <= h < 16 -> 0 <= l < 16 ->
  fromhex (hex_digit h :: hex_digit l :: rest)
  = (bs <- fromhex rest ;; Ok (byte_of (16 * h + l) :: bs)).
Proof.
  intros Hh Hl. cbn [fromhex].
  rewrite (is_c_space_hex_digit h Hh).
  rewrite (hex_value_hex_digit h Hh), (hex_value_hex_digit l Hl).
  reflexivity.
Qed.

Lemma hex_byte_of (h l : Z) :
  0 <= h < 16 -> 0 <= l < 16 ->
  hex [byte_of (16 * h + l)] = [hex_digit h; hex_digit l].
Proof.
  intros Hh Hl. cbn [hex].
  rewrite byte_val_byte_of by lia.
  replace ((16 * h + l) / 16) with h
    by (apply Z.div_unique with l; lia).
  replace ((16 * h + l) mod 16) with l
    by (apply Z.mod_unique with h; lia).
  reflexivity.
Qed.

(** An even number of lower-case hexadecimal digits is the text of exactly
    one buffer. *)
Lemma fromhex_lower_hex (n : nat) (s : str) :
  List.length s = (2 * n)%nat -> Forall lower_hex_digit s ->
  exists bs, fromhex s = Ok bs /\ hex bs = s.
Proof.
  revert s. induction n as [| n IH]; intros s Hlen Hs.
  - destruct s; [| discriminate]. exists []. split; reflexivity.
  - destruct s as [| c1 [| c2 s]]; try (simpl in Hlen; lia).
    inversion Hs as [| ? ? [h [Hh ->]] Hs']; subst.
    inversion Hs' as [| ? ? [l [Hl ->]] Hs'']; subst.
    destruct (IH s) as [bs [Hbs Hhex]];
      [simpl in Hlen; lia | exact Hs'' |].
    exists (byte_of (16 * h + l) :: bs). split.
    + rewrite fromhex_pair, Hbs by assumption. reflexivity.
    + change (hex (byte_of (16 * h + l) :: bs))
        with (hex [byte_of (16 * h + l)] ++ hex bs).
      rewrite hex_byte_of, Hhex by assumption. reflexivity.
Qed.

Lemma digit_is_lower_hex (c : char) : is_digit c = true -> lower_hex_digit c.
Proof.
  intros H. exists (ord c - 48).
  digit_cases H; vm_compute; repeat split; congruence.
Qed.

Lemma slice_last {A : Type} (l : list A) (x : A) :
  slice (l ++ [x]) (Some (-1)) None = [x]
  /\ slice (l ++ [x]) None (Some (-1)) = l.
Proof.
  rewrite slice_from, slice_to.
  assert (E : Z.to_nat (slice_index (len (l ++ [x])) (-1)) = List.length l).
  { unfold slice_index, len. rewrite length_app. cbn [List.length Z.ltb Z.compare]. lia. }
  rewrite E. split.
  - rewrite skipn_app, Nat.sub_diag, skipn_all. reflexivity.
  - rewrite firstn_app, Nat.sub_diag, firstn_all. apply app_nil_r.
Qed.

Lemma add_dec_places_prefix (prefix value : str) (d : Z) :
  0 <= d <= len value ->
  add_dec_places (prefix ++ value) d = prefix ++ add_dec_places value d.
Proof.
  intros Hd. destruct (Z.eq_dec d 0) as [-> | Hnz]; [reflexivity |].
  rewrite !add_dec_places_split by exact Hnz.
  assert (E : forall s : str, 0 <= d <= len s ->
            Z.to_nat (slice_index (len s) (len s - d))
            = (List.length s - Z.to_nat d)%nat).
  { intros s Hs. unfold slice_index.
    replace (len s - d <? 0) with false by (symmetry; apply Z.ltb_ge; lia).
    unfold len in *. lia. }
  assert (Hl : len (prefix ++ value) = len prefix + len value)
    by (unfold len; rewrite length_app; lia).
  pose proof (len_nonneg prefix) as Hp.
  rewrite (E value Hd), (E (prefix ++ value)) by lia.
  assert (Hk : (List.length (prefix ++ value) - Z.to_nat d
                = List.length prefix + (List.length value - Z.to_nat d))%nat).
  { rewrite length_app. unfold len in *. lia. }
  rewrite Hk, firstn_app_2, <- app_assoc. f_equal. f_equal. f_equal.
  rewrite skipn_app.
  rewrite skipn_all2 by lia.
  replace (List.length prefix + (List.length value - Z.to_nat d)
           - List.length prefix)%nat
    with (List.length value - Z.to_nat d)%nat by lia.
  reflexivity.
Qed.

Lemma startswith_minus_false (s : str) :
  Forall (fun c => c <> (code "-")) s -> startswith s "-" = false.
Proof.
  intros H. destruct s as [| c s]; [reflexivity |].
  inversion H; subst. cbn [startswith lit list_ascii_of_string map].
  apply andb_false_intro1. now apply Z.eqb_neq.
Qed.

Lemma startswith_decimal (neg : bool) (ds : str) (d : Z) :
  all_digits ds -> startswith (decimal_string neg ds d) "-" = neg.
Proof.
  intros Hds. unfold decimal_string. destruct neg.
  - reflexivity.
  - apply startswith_minus_false.
    apply Forall_add_dec_places;
      [| intros E; vm_compute in E; discriminate].
    eapply Forall_impl; [| exact Hds].
    intros c Hc. now apply digit_not_punct in Hc.
Qed.

Lemma filter_add_dec_places (value : str) (d : Z) :
  filter (fun x => negb (Z.eqb x (code "."))) (add_dec_places value d)
  = filter (fun x => negb (Z.eqb x (code "."))) value.
Proof.
  destruct (Z.eq_dec d 0) as [-> | Hd]; [reflexivity |].
  rewrite add_dec_places_split by exact Hd.
  set (k := Z.to_nat _).
  rewrite filter_app. cbn [filter].
  change (negb (code "." =? code ".")) with false. cbv iota.
  rewrite <- filter_app, firstn_skipn. reflexivity.
Qed.

Lemma replace_decimal (neg : bool) (ds : str) (d : Z) :
  all_digits ds ->
  replace (replace (decimal_string neg ds d) "." "") "-" "" = ds.
Proof.
  intros Hds.
  change (lit ".") with [code "."]. change (lit "-") with [code "-"].
  change (lit "") with (@nil char).
  rewrite !replace_char. unfold decimal_string.
  rewrite filter_app, filter_add_dec_places, filter_app.
  assert (Hd : filter (fun x => negb (Z.eqb x (code "."))) ds = ds).
  { apply filter_all. eapply Forall_impl; [| exact Hds].
    intros c Hc. apply digit_not_punct in Hc.
    apply negb_true_iff. now apply Z.eqb_neq. }
  assert (Hm : filter (fun x => negb (Z.eqb x (code "-"))) ds = ds).
  { apply filter_all. eapply Forall_impl; [| exact Hds].
    intros c Hc. apply digit_not_punct in Hc.
    apply negb_true_iff. now apply Z.eqb_neq. }
  rewrite Hd, Hm. destruct neg; reflexivity.
Qed.

Lemma zfill_digits (ds : str) (width : Z) :
  all_digits ds ->
  zfill ds width = repeat (code "0") (Z.to_nat (width - len ds)) ++ ds.
Proof.
  intros Hds. unfold zfill.
  change (lit "0") with [code "0"]. rewrite repeat_str_char.
  destruct ds as [| c ds]; [now rewrite app_nil_r |].
  inversion Hds as [| ? ? Hc _]; subst.
  apply digit_not_punct in Hc. destruct Hc as (_ & Hm & Hp & _).
  apply Z.eqb_neq in Hm, Hp. rewrite Hm, Hp. reflexivity.
Qed.

Lemma zfill_digits_props (ds : str) (width : Z) :
  all_digits ds -> len ds <= width ->
  all_digits (zfill ds width) /\ len (zfill ds width) = width.
Proof.
  intros Hds Hw. rewrite zfill_digits by exact Hds. split.
  - apply Forall_app. split; [| exact Hds].
    apply Forall_forall. intros x Hx. apply repeat_spec in Hx. now subst x.
  - unfold len in *. rewrite length_app, repeat_length. lia.
Qed.

Lemma pack_packed_eq (v type : str) (d pad : Z) :
  In type packed_tags ->
  pack v type d pad =
  fromhex (zfill (replace (replace v "." "") "-" "") (pad * 2 - 1)
           +++ (if startswith v "-" then "d" else "c")).
Proof.
  intros [<- | [<- | []]]; reflexivity.
Qed.

Lemma unpack_packed_eq (bs : list byte) (type : str) (d : Z) (lv sp : bool) :
  In type packed_tags ->
  unpack bs type d lv sp =
  Ok (add_dec_places
        ((if negb (str_in (slice (hex bs) (Some (-1)) None) ["d" : str; "b" : str])
          then "" else "-")
         +++ slice (hex bs) None (Some (-1)))
        d).
Proof.
  intros [<- | [<- | []]]; reflexivity.
Qed.

Lemma round_trip_packed (type : str) (neg : bool) (ds : str) (d pad : Z)
    (lv sp : bool) :
  In type packed_tags -> all_digits ds ->
  0 <= d <= len ds -> len ds <= pad * 2 - 1 ->
  round_trip (decimal_string neg ds d) type d pad lv sp
  = Ok (decimal_string neg (zfill ds (pad * 2 - 1)) d).
Proof.
  intros Htag Hds Hd Hpad. unfold round_trip.
  rewrite (pack_packed_eq _ _ _ _ Htag).
  rewrite (replace_decimal neg ds d Hds), (startswith_decimal neg ds d Hds).
  destruct (zfill_digits_props ds (pad * 2 - 1) Hds Hpad) as [Hz Hlen].
  set (zf := zfill ds (pad * 2 - 1)) in *.
  set (sign := if neg then code "d" else code "c").
  assert (Hs : (if neg then lit "d" else lit "c") = [sign])
    by (destruct neg; reflexivity).
  rewrite Hs.
  destruct (fromhex_lower_hex (Z.to_nat pad) (zf ++ [sign])) as [bs [Hbs Hhex]].
  - rewrite length_app. unfold len in Hlen. cbn [List.length]. lia.
  - apply Forall_app. split.
    + eapply Forall_impl; [| exact Hz]. apply digit_is_lower_hex.
    + constructor; [| constructor].
      destruct neg; [exists 13 | exists 12]; split; (lia || reflexivity).
  - rewrite Hbs. cbn [bind].
    rewrite (unpack_packed_eq _ _ _ _ _ Htag), Hhex.
    destruct (slice_last zf sign) as [-> ->].
    assert (Hn : (if negb (str_in [sign] ["d" : str; "b" : str])
                  then lit "" else lit "-")
                 = (if neg then lit "-" else lit ""))
      by (destruct neg; reflexivity).
    rewrite Hn. unfold decimal_string.
    rewrite add_dec_places_prefix by lia. reflexivity.
Qed.

(** *** Binary *)

Lemma be_value_snoc (bs : list byte) (b : byte) :
  be_value (bs ++ [b]) = 256 * be_value bs + byte_val b.
Proof.
  unfold be_value. rewrite fold_left_app. reflexivity.
Qed.

Lemma length_to_bytes_be (k : nat) (n : Z) : List.length (to_bytes_be k n) = k.
Proof.
  revert n. induction k as [| k IH]; intros n.
  - reflexivity.
  - cbn [to_bytes_be]. rewrite length_app, IH. simpl. lia.
Qed.

Lemma be_value_to_bytes_be (k : nat) (n : Z) :
  be_value (to_bytes_be k n) = n mod 256 ^ Z.of_nat k.
Proof.
  revert n. induction k as [| k IH]; intros n.
  - simpl. now rewrite Z.mod_1_r.
  - cbn [to_bytes_be]. rewrite be_value_snoc, IH.
    rewrite byte_val_byte_of by (apply Z.mod_pos_bound; lia).
    rewrite Nat2Z.inj_succ, Z.pow_succ_r by lia.
    rewrite Z.rem_mul_r by (try apply Z.pow_nonzero; lia). lia.
Qed.

Lemma unpack_binary_eq (bs : list byte) (d : Z) (lv sp : bool) :
  unpack bs "bi" d lv sp =
  (n <- int_of_0x (hex bs) ;; Ok (add_dec_places (str_of_int n) d)).
Proof. reflexivity. Qed.

Lemma round_trip_binary (v : str) (n pad : Z) (lv sp : bool) :
  int_of_str v = Ok n -> 0 <= n < 2 ^ 64 ->
  round_trip v "bi" 0 pad lv sp = Ok (str_of_int n).
Proof.
  intros Hv Hn. unfold round_trip.
  change (pack v "bi" 0 pad) with (n <- int_of_str v ;; struct_pack_Q n).
  rewrite Hv. cbn [bind]. unfold struct_pack_Q.
  replace ((0 <=? n) && (n <? 2 ^ 64)) with true
    by (symmetry; apply andb_true_intro; split;
        [apply Z.leb_le | apply Z.ltb_lt]; lia).
  cbn [bind]. rewrite unpack_binary_eq, int_of_0x_hex.
  - rewrite be_value_to_bytes_be.
    change (256 ^ Z.of_nat 8) with (2 ^ 64).
    rewrite Z.mod_small by lia. reflexivity.
  - intros E. apply (f_equal (@List.length _)) in E.
    rewrite length_to_bytes_be in E. discriminate.
Qed.

Lemma round_trip_signed_binary (v : str) (n pad : Z) (lv sp : bool) :
  int_of_str v = Ok n -> - 2 ^ 63 <= n < 2 ^ 63 ->
  round_trip v "bi+" 0 pad lv sp = Ok (str_of_int n).
Proof.
  intros Hv Hn. unfold round_trip.
  change (pack v "bi+" 0 pad) with (n <- int_of_str v ;; struct_pack_q n).
  rewrite Hv. cbn [bind]. unfold struct_pack_q.
  replace ((- 2 ^ 63 <=? n) && (n <? 2 ^ 63)) with true
    by (symmetry; apply andb_true_intro; split;
        [apply Z.leb_le | apply Z.ltb_lt]; lia).
  cbn [bind].
  set (bs := to_bytes_be 8 (n mod 2 ^ 64)).
  assert (Hlen : len bs = 8)
    by (unfold len, bs; rewrite length_to_bytes_be; reflexivity).
  assert (Hne : bs <> []) by (intros E; rewrite E in Hlen; discriminate).
  destruct (unpack_signed_binary_upto_10 bs 0 lv sp Hne) as [-> _]; [lia |].
  rewrite add_dec_places_0, Hlen. f_equal. f_equal.
  unfold bs. rewrite be_value_to_bytes_be.
  change (256 ^ Z.of_nat 8) with (2 ^ 64).
  change (8 * 8 - 1) with 63. change (8 * 8) with 64.
  rewrite Z.mod_mod by lia.
  assert (H63 : 2 ^ 64 = 2 * 2 ^ 63) by reflexivity.
  destruct (Z.le_gt_cases 0 n) as [Hpos | Hneg].
  - rewrite Z.mod_small by lia.
    replace (n <=? 2 ^ 63 - 1) with true by (symmetry; apply Z.leb_le; lia).
    reflexivity.
  - replace (n mod 2 ^ 64) with (n + 2 ^ 64)
      by (apply Z.mod_unique with (-1); lia).
    replace (n + 2 ^ 64 <=? 2 ^ 63 - 1) with false
      by (symmetry; apply Z.leb_gt; lia).
    lia.
Qed.

(** *** Decimal text of integers *)

Lemma digit_char_props (d : Z) :
  0 <= d < 10 ->
  is_digit (digit_char d) = true /\ ord (digit_char d) - 48 = d
  /\ decimal_value (digit_char d) = Some d.
Proof.
  intros Hd.
  assert (H : In d [0; 1; 2; 3; 4; 5; 6; 7; 8; 9]) by (simpl; lia).
  simpl in H.
  repeat (destruct H as [<- | H]; [repeat split; reflexivity |]).
  contradiction.
Qed.

Lemma all_digits_decimal_digits (fuel : nat) :
  forall (n : Z) (acc : str),
    all_digits acc -> all_digits (decimal_digits fuel n acc).
Proof.
  induction fuel as [| fuel IH]; intros n acc Hacc.
  - exact Hacc.
  - cbn [decimal_digits].
    assert (Hd : all_digits (digit_char (n mod 10) :: acc)).
    { constructor; [| exact Hacc].
      apply digit_char_props. apply Z.mod_pos_bound. lia. }
    destruct (n <? 10); [exact Hd | now apply IH].
Qed.

Lemma parse_decimal_digits (fuel : nat) :
  forall (n : Z) (rest : str),
    0 <= n < 2 ^ Z.of_nat (S fuel) ->
    exists k, forall acc b,
      parse_digits acc b (decimal_digits (S fuel) n rest)
      = parse_digits (acc * k + n) true rest.
Proof.
  induction fuel as [| fuel IH]; intros n rest Hn;
    cbn [decimal_digits];
    (destruct (digit_char_props (n mod 10)) as (Hdig & Hval & Hdec);
      [apply Z.mod_pos_bound; lia |]);
    destruct (n <? 10) eqn:E.
  - apply Z.ltb_lt in E.
    exists 10. intros acc b. cbn [parse_digits].
    rewrite Hdec. rewrite Z.mod_small by lia. f_equal. lia.
  - apply Z.ltb_ge in E. change (2 ^ Z.of_nat 1) with 2 in Hn. lia.
  - apply Z.ltb_lt in E.
    exists 10. intros acc b. cbn [parse_digits].
    rewrite Hdec. rewrite Z.mod_small by lia. f_equal. lia.
  - apply Z.ltb_ge in E.
    assert (Hq : 0 <= n / 10 < 2 ^ Z.of_nat (S fuel)).
    { rewrite (Nat2Z.inj_succ (S fuel)), Z.pow_succ_r in Hn by lia.
      split; [apply Z.div_pos; lia |].
      apply Z.div_lt_upper_bound; lia. }
    destruct (IH (n / 10) (digit_char (n mod 10) :: rest) Hq) as [k Hk].
    exists (10 * k). intros acc b. rewrite Hk. cbn [parse_digits].
    rewrite Hdec. f_equal.
    rewrite (Z.div_mod n 10) at 3 by lia. ring.
Qed.

Lemma lstrip_by_none (f : char -> bool) (s : str) :
  Forall (fun c => f c = false) s -> lstrip_by f s = s.
Proof.
  intros H. destruct s as [| c s]; [reflexivity |].
  inversion H; subst. now apply lstrip_by_keep.
Qed.

Lemma digit_not_int_space (c : char) :
  is_digit c = true -> is_int_space c = false.
Proof.
  intros H. digit_cases H; reflexivity.
Qed.

Lemma decimal_value_digit (c : char) :
  is_digit c = true -> decimal_value c = Some (ord c - 48).
Proof.
  intros H. digit_cases H; reflexivity.
Qed.

Lemma int_of_str_digits (ds : str) (neg : bool) :
  all_digits ds ->
  int_of_str ((if neg then "-" else "") +++ ds)
  = match parse_digits 0 false ds with
    | Some n => Ok (if neg then - n else n)
    | None => Raise ValueError
    end.
Proof.
  intros Hds. unfold int_of_str.
  assert (Hsp : Forall (fun c => is_int_space c = false)
                       ((if neg then "-" else "") +++ ds)).
  { apply Forall_app. split.
    - destruct neg; repeat constructor.
    - eapply Forall_impl; [| exact Hds]. apply digit_not_int_space. }
  rewrite (lstrip_by_none _ _ Hsp), (rstrip_by_none _ _ Hsp).
  destruct neg.
  - reflexivity.
  - cbn [lit list_ascii_of_string map app].
    destruct ds as [| c ds]; [reflexivity |].
    inversion Hds as [| ? ? Hc _]; subst.
    apply digit_not_punct in Hc. destruct Hc as (_ & Hm & Hp & _).
    apply Z.eqb_neq in Hm, Hp. rewrite Hm, Hp. reflexivity.
Qed.

(** The decimal text of an integer reads back as that integer. *)
Lemma int_of_str_of_int (n : Z) : int_of_str (str_of_int n) = Ok n.
Proof.
  unfold str_of_int.
  set (m := Z.abs n).
  set (fuel := Z.to_nat (Z.log2 m)).
  assert (Hm : 0 <= m < 2 ^ Z.of_nat (S fuel)).
  { unfold fuel. rewrite Nat2Z.inj_succ, Z2Nat.id by apply Z.log2_nonneg.
    split; [apply Z.abs_nonneg |].
    destruct (Z.eq_dec m 0) as [-> | Hnz]; [reflexivity |].
    apply Z.log2_spec. pose proof (Z.abs_nonneg n). lia. }
  pose proof (all_digits_decimal_digits (S fuel) m [] (Forall_nil _)) as Hall.
  destruct (parse_decimal_digits fuel m [] Hm) as [k Hk].
  assert (Hp : parse_digits 0 false (decimal_digits (S fuel) m []) = Some m).
  { rewrite Hk. cbn [parse_digits]. f_equal; lia. }
  destruct (n <? 0) eqn:E.
  - pose proof (int_of_str_digits _ true Hall) as Hi.
    cbn [lit list_ascii_of_string map app] in Hi. rewrite Hi, Hp.
    apply Z.ltb_lt in E. f_equal. unfold m. lia.
  - pose proof (int_of_str_digits _ false Hall) as Hi.
    cbn [lit list_ascii_of_string map app] in Hi. rewrite Hi, Hp.
    apply Z.ltb_ge in E. f_equal. unfold m. lia.
Qed.

Lemma round_trip_hex (v : str) (bs : list byte) (d pad : Z) (lv sp : bool) :
  fromhex v = Ok bs -> round_trip v "hex" d pad lv sp = Ok (hex bs).
Proof.
  intros H. unfold round_trip.
  change (pack v "hex" d pad) with (fromhex v). rewrite H. reflexivity.
Qed.

(** *** The round-trip property *)

(** C1, as the code has it. Decoding what was encoded under the same
    descriptor returns the normalized value in the text format, the packed
    formats, the binary formats with no decimal places, and the hex format:
    - text: for a value written with characters of the code page, with
      stripping requested, the value without null characters and
      trailing white space, which for a decimal string is the string itself;
      without it, the value filled with null characters to the pad length;
    - packed: a decimal string of at most [pad * 2 - 1] digits, [d] of them
      after the point, comes back with its digits zero-filled to that width;
    - binary: a value that [int] reads as [n], within the range of the
      eight-byte format, comes back as the decimal text of [n], and that text
      reads as [n] again;
    - hex: a value that [fromhex] reads as a buffer comes back as the
      lower-case text of the buffer, which reads as the buffer again.
    The zoned formats are not covered. *)
Theorem round_trip_normalizes :
  (forall (v : str) (d pad : Z) (sp : bool),
      in_cp037 v ->
      round_trip v "ch" d pad true sp = Ok (strip_text v))
  /\ (forall (neg : bool) (digits : str) (d : Z),
         all_digits digits ->
         strip_text (decimal_string neg digits d) = decimal_string neg digits d)
  /\ (forall (v : str) (d pad : Z) (sp : bool),
         in_cp037 v ->
         round_trip v "ch" d pad false sp
         = Ok (v ++ repeat (code "000") (Z.to_nat (pad - len v))))
  /\ (forall (type : str) (neg : bool) (digits : str) (d pad : Z) (lv sp : bool),
         In type packed_tags -> all_digits digits ->
         0 <= d <= len digits -> len digits <= pad * 2 - 1 ->
         round_trip (decimal_string neg digits d) type d pad lv sp
         = Ok (decimal_string neg (zfill digits (pad * 2 - 1)) d))
  /\ (forall (v : str) (n pad : Z) (lv sp : bool),
         int_of_str v = Ok n -> 0 <= n < 2 ^ 64 ->
         round_trip v "bi" 0 pad lv sp = Ok (str_of_int n))
  /\ (forall (v : str) (n pad : Z) (lv sp : bool),
         int_of_str v = Ok n -> - 2 ^ 63 <= n < 2 ^ 63 ->
         round_trip v "bi+" 0 pad lv sp = Ok (str_of_int n))
  /\ (forall n : Z, int_of_str (str_of_int n) = Ok n)
  /\ (forall (v : str) (bs : list byte) (d pad : Z) (lv sp : bool),
         fromhex v = Ok bs -> round_trip v "hex" d pad lv sp = Ok (hex bs))
  /\ (forall bs : list byte, fromhex (hex bs) = Ok bs).
Proof.
  repeat apply conj.
  - exact round_trip_text.
  - exact strip_text_decimal.
  - exact round_trip_text_padded.
  - exact round_trip_packed.
  - exact round_trip_binary.
  - exact round_trip_signed_binary.
  - exact int_of_str_of_int.
  - exact round_trip_hex.
  - exact fromhex_hex.
Qed.

Lemma round_trip_normalizes_witness :
  round_trip "-123.45" "pd+" 2 3 false false = Ok (lit "-123.45")
  /\ round_trip "7.5" "pd" 1 3 false false = Ok (lit "0007.5")
  /\ round_trip "+0255" "bi" 0 0 false false = Ok (lit "255")
  /\ round_trip "-32768" "bi+" 0 0 false false = Ok (lit "-32768")
  /\ round_trip "C1 f0" "hex" 0 0 false false = Ok (lit "c1f0")
  /\ strip_text "-123.45" = lit "-123.45".
Proof.
  destruct round_trip_normalizes as (_ & Hs & _ & Hp & Hb & Hq & _ & Hx & _).
  repeat apply conj.
  - apply (Hp "pd+" true "12345" 2 3 false false).
    + vm_compute. tauto.
    + repeat constructor.
    + vm_compute. split; congruence.
    + vm_compute. congruence.
  - apply (Hp "pd" false "75" 1 3 false false).
    + vm_compute. tauto.
    + repeat constructor.
    + vm_compute. split; congruence.
    + vm_compute. congruence.
  - apply (Hb "+0255" 255 0 false false).
    + vm_compute. reflexivity.
    + vm_compute. split; congruence.
  - apply (Hq "-32768" (-32768) 0 false false).
    + vm_compute. reflexivity.
    + vm_compute. split; congruence.
  - apply (Hx "C1 f0" [xc1; xf0] 0 0 false false).
    vm_compute. reflexivity.
  - apply (Hs true "12345" 2).
    repeat constructor.
Defined.

(** C1 as stated fails. In the signed-zoned format "-12345" comes back as
    "-123450", ten times the value, and in the zoned format as "12345}",
    which is not a decimal string: the encoder adds the sign as a character
    of its own, which the decoder reads as the last digit.  A further limit
    of the property: a binary field with decimal places returns "12.34" for
    "1234" and cannot encode "12.34".  No normalized form of "-12345" is
    what both the signed-packed and the signed-zoned round trip return. *)
Lemma round_trip_fails :
  round_trip "-12345" "zd+" 0 6 false false = Ok (lit "-123450")
  /\ int_of_str "-12345" = Ok (-12345)
  /\ int_of_str "-123450" = Ok (-123450)
  /\ round_trip "-12345" "zd" 0 6 false false = Ok (lit "12345}")
  /\ round_trip "5" "zd+" 0 1 true false = Ok (lit "50")
  /\ round_trip "1234" "bi+" 2 0 false false = Ok (lit "12.34")
  /\ round_trip "12.34" "bi+" 2 0 false false = Raise ValueError
  /\ ~ (exists normalized : str,
          round_trip "-12345" "pd+" 0 6 false false = Ok normalized
          /\ round_trip "-12345" "zd+" 0 6 false false = Ok normalized).
Proof.
  repeat split.
  intros [normalized [Hp Hz]].
  vm_compute in Hp, Hz. congruence.
Qed.

(** ** Further properties of the decoder *)

(** *** Binary decode *)

(** X1. Unsigned binary decode reads a non-empty buffer of at most 1785
    bytes as one big-endian number and writes it in decimal, with the point
    inserted afterwards; the number is below [256 ^ n], so it has at most
    4300 digits, the most that an interpreter with the default limit on
    conversions writes, and its text reads back as the number. *)
Theorem unpack_unsigned_binary_value :
  forall (bs : list byte) (d : Z) (lv sp : bool),
    bs <> [] -> len bs <= 1785 ->
    unpack bs "bi" d lv sp = Ok (add_dec_places (str_of_int (be_value bs)) d)
    /\ 0 <= be_value bs < 256 ^ len bs
    /\ be_value bs < 10 ^ 4300
    /\ int_of_str (str_of_int (be_value bs)) = Ok (be_value bs).
Proof.
  intros bs d lv sp Hne Hlen.
  pose proof (be_value_range bs) as Hr.
  split; [| split; [| split]].
  - rewrite unpack_binary_eq, (int_of_0x_hex bs Hne). reflexivity.
  - exact Hr.
  - assert (Hp : 256 ^ len bs <= 256 ^ 1785)
      by (apply Z.pow_le_mono_r; [lia | exact Hlen]).
    assert (Hq : 256 ^ 1785 < 10 ^ 4300) by (vm_compute; reflexivity).
    lia.
  - apply int_of_str_of_int.
Qed.

Lemma unpack_unsigned_binary_value_witness :
  unpack [x01; x00; x00] "bi" 2 false false = Ok (lit "655.36").
Proof.
  apply (unpack_unsigned_binary_value [x01; x00; x00] 2 false false).
  - discriminate.
  - vm_compute. congruence.
Defined.

Lemma signed_binary_reading (bs : list byte) (d : Z) (lv sp : bool) :
  bs <> [] -> len bs <= 10 ->
  exists z,
    unpack bs "bi+" d lv sp = Ok (add_dec_places (str_of_int z) d)
    /\ - 2 ^ (8 * len bs - 1) <= z < 2 ^ (8 * len bs - 1)
    /\ z mod 2 ^ (8 * len bs) = be_value bs
    /\ (z <? 0) = high_bit_set bs.
Proof.
  intros Hne Hlen.
  destruct (unpack_signed_binary_upto_10 bs d lv sp Hne Hlen) as [Hu Hb].
  pose proof (be_value_range bs) as Hr.
  assert (Hpos : 0 < len bs)
    by (destruct bs; [congruence | unfold len; simpl; lia]).
  assert (Hp : 2 ^ (8 * len bs) = 2 * 2 ^ (8 * len bs - 1)).
  { rewrite <- Z.pow_succ_r by lia. f_equal. lia. }
  assert (H256 : 256 ^ len bs = 2 ^ (8 * len bs)).
  { change 256 with (2 ^ 8). rewrite <- Z.pow_mul_r by lia. reflexivity. }
  assert (Hhalf : 0 < 2 ^ (8 * len bs - 1)) by (apply Z.pow_pos_nonneg; lia).
  rewrite H256 in Hr.
  destruct (be_value bs <=? 2 ^ (8 * len bs - 1) - 1) eqn:E.
  - apply Z.leb_le in E. exists (be_value bs).
    split; [exact Hu |]. split; [lia |]. split.
    + apply Z.mod_small. lia.
    + replace (be_value bs <? 0) with false by (symmetry; apply Z.ltb_ge; lia).
      destruct (high_bit_set bs); [discriminate | reflexivity].
  - apply Z.leb_gt in E. exists (be_value bs - 2 ^ (8 * len bs)).
    split; [exact Hu |]. split; [lia |]. split.
    + symmetry. apply Z.mod_unique with (-1); lia.
    + replace (be_value bs - 2 ^ (8 * len bs) <? 0) with true
        by (symmetry; apply Z.ltb_lt; lia).
      destruct (high_bit_set bs); [reflexivity | discriminate].
Qed.

(** X2. Signed binary decode of one to ten bytes is the two's-complement
    reading: the number written lies in [-2^(8n-1), 2^(8n-1)), is congruent to
    the big-endian value modulo [2^(8n)], and is negative exactly when the top
    bit of the first byte is set. *)
Theorem unpack_signed_binary_twos_complement :
  forall (bs : list byte) (d : Z) (lv sp : bool),
    bs <> [] -> len bs <= 10 ->
    exists z,
      unpack bs "bi+" d lv sp = Ok (add_dec_places (str_of_int z) d)
      /\ - 2 ^ (8 * len bs - 1) <= z < 2 ^ (8 * len bs - 1)
      /\ z mod 2 ^ (8 * len bs) = be_value bs
      /\ (z <? 0) = high_bit_set bs.
Proof.
  intros bs d lv sp Hne Hlen. now apply signed_binary_reading.
Qed.

Lemma unpack_signed_binary_twos_complement_witness :
  exists z,
    unpack [xff; xfe] "bi+" 0 false false = Ok (add_dec_places (str_of_int z) 0)
    /\ - 2 ^ (8 * len [xff; xfe] - 1) <= z < 2 ^ (8 * len [xff; xfe] - 1)
    /\ z mod 2 ^ (8 * len [xff; xfe]) = be_value [xff; xfe]
    /\ (z <? 0) = high_bit_set [xff; xfe].
Proof.
  apply (unpack_signed_binary_twos_complement [xff; xfe] 0 false false).
  - discriminate.
  - vm_compute. congruence.
Defined.

(** X3. On the empty buffer the binary formats raise [ValueError] (there is no
    number to read) and the bit format raises [IndexError]; the packed,
    signed-zoned, zoned, hex and text formats return, with nothing but the
    decimal point in the result. *)
Theorem unpack_empty_buffer :
  forall (d : Z) (lv sp : bool),
    unpack [] "bi" d lv sp = Raise ValueError
    /\ unpack [] "bi+" d lv sp = Raise ValueError
    /\ unpack [] "bit" d lv sp = Raise IndexError
    /\ unpack [] "pd" d lv sp = Ok (if d =? 0 then lit "" else lit ".")
    /\ unpack [] "zd" d lv sp = Ok (if d =? 0 then lit "" else lit ".")
    /\ unpack [] "zd+" d lv sp = Ok (if d =? 0 then lit "" else lit ".")
    /\ unpack [] "hex" d lv sp = Ok (lit "")
    /\ unpack [] "ch" d lv sp = Ok (lit "").
Proof.
  intros d lv sp.
  assert (He : add_dec_places [] d = if d =? 0 then lit "" else lit ".").
  { unfold add_dec_places. destruct (d =? 0); [reflexivity |].
    rewrite slice_to, slice_from. unfold slice_index, len. cbn [List.length].
    rewrite !firstn_nil, !skipn_nil. reflexivity. }
  repeat split; try reflexivity.
  - change (unpack [] "pd" d lv sp) with (Ok (add_dec_places [] d)).
    now rewrite He.
  - change (unpack [] "zd" d lv sp) with (Ok (add_dec_places [] d)).
    now rewrite He.
  - change (unpack [] "zd+" d lv sp) with (Ok (add_dec_places [] d)).
    now rewrite He.
  - destruct lv; reflexivity.
Qed.

(** *** Packed and signed-zoned decode *)

Lemma hex_app (a b : list byte) : hex (a ++ b) = hex a ++ hex b.
Proof.
  induction a as [| x a IH]; [reflexivity |].
  cbn [app hex]. now rewrite IH.
Qed.

Lemma hex_snoc (bs : list byte) (b : byte) :
  hex (bs ++ [b])
  = (hex bs ++ [hex_digit (high_nibble b)]) ++ [hex_digit (low_nibble b)].
Proof.
  rewrite hex_app, <- app_assoc. reflexivity.
Qed.

Lemma slice_second_last {A : Type} (l : list A) (x y : A) :
  slice ((l ++ [x]) ++ [y]) (Some (-2)) (Some (-1)) = [x].
Proof.
  unfold slice, slice_index, len.
  rewrite !length_app. cbn [List.length Z.ltb Z.compare].
  replace (Z.to_nat (Z.max 0 (-1 + Z.of_nat (List.length l + 1 + 1))
                     - Z.max 0 (-2 + Z.of_nat (List.length l + 1 + 1))))
    with 1%nat by lia.
  replace (Z.to_nat (Z.max 0 (-2 + Z.of_nat (List.length l + 1 + 1))))
    with (List.length l + 0)%nat by lia.
  rewrite <- app_assoc, skipn_app, Nat.add_0_r, skipn_all.
  replace (List.length l - List.length l)%nat with 0%nat by lia.
  reflexivity.
Qed.

Lemma str_in_sign_nibble (n : Z) :
  0 <= n < 16 ->
  str_in [hex_digit n] ["d" : str; "b" : str] = (n =? 13) || (n =? 11).
Proof.
  intros Hn.
  assert (H : In n [0; 1; 2; 3; 4; 5; 6; 7; 8; 9; 10; 11; 12; 13; 14; 15])
    by (simpl; lia).
  simpl in H.
  repeat (destruct H as [<- | H]; [reflexivity |]). contradiction.
Qed.

Lemma str_eqb_zone_nibble (n : Z) :
  0 <= n < 16 -> str_eqb [hex_digit n] "d" = (n =? 13).
Proof.
  intros Hn.
  assert (H : In n [0; 1; 2; 3; 4; 5; 6; 7; 8; 9; 10; 11; 12; 13; 14; 15])
    by (simpl; lia).
  simpl in H.
  repeat (destruct H as [<- | H]; [reflexivity |]). contradiction.
Qed.

(** X4. Packed decode takes the last half-byte as the sign, negative when it is
    [d] or [b], and returns every other half-byte as a character of the
    result, in order, without checking that it is a decimal digit. *)
Theorem unpack_packed_reads_sign_nibble :
  forall (type : str) (bs : list byte) (b : byte) (d : Z) (lv sp : bool),
    In type packed_tags ->
    unpack (bs ++ [b]) type d lv sp
    = Ok (add_dec_places
            ((if (low_nibble b =? 13) || (low_nibble b =? 11) then "-" else "")
             +++ hex bs ++ [hex_digit (high_nibble b)])
            d).
Proof.
  intros type bs b d lv sp Htag.
  rewrite (unpack_packed_eq _ _ _ _ _ Htag), hex_snoc.
  destruct (slice_last (hex bs ++ [hex_digit (high_nibble b)])
                       (hex_digit (low_nibble b))) as [-> ->].
  rewrite str_in_sign_nibble by apply nibbles_range.
  destruct ((low_nibble b =? 13) || (low_nibble b =? 11)); reflexivity.
Qed.

Lemma unpack_packed_reads_sign_nibble_witness :
  unpack ([x12; x34] ++ [x5b]) "pd" 2 false false = Ok (lit "-123.45").
Proof.
  apply (unpack_packed_reads_sign_nibble "pd" [x12; x34] x5b 2 false false).
  vm_compute. tauto.
Defined.

Lemma signed_zoned_reading (bs : list byte) (b : byte) (d : Z) (lv sp : bool) :
  unpack (bs ++ [b]) "zd+" d lv sp
  = Ok (add_dec_places
          ((if high_nibble b =? 13 then "-" else "")
           +++ decode_cp037 bs ++ [hex_digit (low_nibble b)])
          d).
Proof.
  change (unpack (bs ++ [b]) "zd+" d lv sp) with
    (Ok (add_dec_places
           ((if negb (str_eqb (slice (hex (bs ++ [b])) (Some (-2)) (Some (-1))) "d")
             then "" else "-")
            +++ decode_cp037 (slice (bs ++ [b]) None (Some (-1)))
            +++ slice (hex (bs ++ [b])) (Some (-1)) None)
           d)).
  rewrite hex_snoc, slice_second_last.
  destruct (slice_last (hex bs ++ [hex_digit (high_nibble b)])
                       (hex_digit (low_nibble b))) as [-> _].
  destruct (slice_last bs b) as [_ ->].
  rewrite str_eqb_zone_nibble by apply nibbles_range.
  destruct (high_nibble b =? 13); reflexivity.
Qed.

(** X5. Signed-zoned decode reads the last byte as an overpunch: its high
    half-byte gives the sign, negative only when it is [d], and its low
    half-byte, written as a hexadecimal digit, is the last character; the
    bytes before it are decoded as text. *)
Theorem unpack_signed_zoned_reads_overpunch :
  forall (bs : list byte) (b : byte) (d : Z) (lv sp : bool),
    unpack (bs ++ [b]) "zd+" d lv sp
    = Ok (add_dec_places
            ((if high_nibble b =? 13 then "-" else "")
             +++ decode_cp037 bs ++ [hex_digit (low_nibble b)])
            d).
Proof.
  intros. apply signed_zoned_reading.
Qed.

(** *** Bit decode *)

Lemma replace_bin_byte (b : byte) :
  zfill (replace (bin (byte_val b)) "0b" "") 8 = bits8 b.
Proof. destruct b; reflexivity. Qed.

Lemma bin_byte_digits (b : byte) :
  len (replace (bin (byte_val b)) "0b" "") <= 8
  /\ startswith (replace (bin (byte_val b)) "0b" "") "+" = false
  /\ startswith (replace (bin (byte_val b)) "0b" "") "-" = false.
Proof.
  destruct b; vm_compute; repeat split; congruence.
Qed.

Lemma zfill_unsigned (s : str) (width : Z) :
  startswith s "+" = false -> startswith s "-" = false ->
  zfill s width = repeat (code "0") (Z.to_nat (width - len s)) ++ s.
Proof.
  intros Hp Hm. unfold zfill.
  change (lit "0") with [code "0"]. rewrite repeat_str_char.
  destruct s as [| c s]; [now rewrite app_nil_r |].
  cbn [startswith lit list_ascii_of_string map] in Hp, Hm.
  rewrite andb_true_r in Hp, Hm. rewrite Hm, Hp. reflexivity.
Qed.

(** X6. Bit decode looks at the first byte only: the result is the [8 * n]
    characters made of [8 * (n - 1)] zeros followed by the eight bits of that
    byte, most significant first, joined by semicolons; the bytes after the
    first add to the width and to nothing else. *)
Theorem unpack_bit_first_byte :
  forall (b : byte) (rest : list byte) (d : Z) (lv sp : bool),
    unpack (b :: rest) "bit" d lv sp
    = Ok (join ";" (repeat (code "0") (8 * List.length rest) ++ bits8 b)).
Proof.
  intros b rest d lv sp.
  change (unpack (b :: rest) "bit" d lv sp) with
    (Ok (join ";" (zfill (replace (bin (byte_val b)) "0b" "")
                         (len (b :: rest) * 8)))).
  f_equal. f_equal.
  rewrite <- replace_bin_byte.
  destruct (bin_byte_digits b) as (Hlen & Hp & Hm).
  set (s := replace (bin (byte_val b)) "0b" "") in *.
  rewrite !zfill_unsigned by assumption.
  rewrite app_assoc, <- repeat_app. f_equal. f_equal.
  pose proof (len_nonneg s). unfold len in *. cbn [List.length]. lia.
Qed.

(** ** Further properties of decimal-point insertion *)

(** X7. With a count [n] between 1 and the length of the value, the point goes
    exactly [n] characters from the end. *)
Theorem add_dec_places_in_range :
  forall (value : str) (n : Z),
    0 < n <= len value ->
    exists whole frac : str,
      value = whole ++ frac
      /\ len frac = n
      /\ add_dec_places value n = whole ++ code "." :: frac.
Proof.
  intros value n Hn.
  exists (firstn (Z.to_nat (len value - n)) value),
         (skipn (Z.to_nat (len value - n)) value).
  split; [now rewrite firstn_skipn |]. split.
  - unfold len in *. rewrite length_skipn. lia.
  - rewrite add_dec_places_split by lia.
    unfold slice_index.
    replace (len value - n <? 0) with false by (symmetry; apply Z.ltb_ge; lia).
    replace (Z.min (len value - n) (len value)) with (len value - n) by lia.
    reflexivity.
Qed.

Lemma add_dec_places_in_range_witness :
  exists whole frac : str,
    lit "0011" = whole ++ frac
    /\ len frac = 2
    /\ add_dec_places "0011" 2 = whole ++ code "." :: frac.
Proof.
  apply (add_dec_places_in_range "0011" 2).
  vm_compute. split; congruence.
Defined.

(** X8. A negative count puts the point after the last character. *)
Theorem add_dec_places_negative :
  forall (value : str) (n : Z),
    n < 0 -> add_dec_places value n = value ++ [code "."].
Proof.
  intros value n Hn.
  pose proof (len_nonneg value) as Hl.
  rewrite add_dec_places_split by lia.
  unfold slice_index.
  replace (len value - n <? 0) with false by (symmetry; apply Z.ltb_ge; lia).
  replace (Z.to_nat (Z.min (len value - n) (len value)))
    with (List.length value) by (unfold len in *; lia).
  rewrite firstn_all, skipn_all. reflexivity.
Qed.

Lemma add_dec_places_negative_witness :
  add_dec_places "123" (-2) = lit "123.".
Proof.
  apply (add_dec_places_negative "123" (-2)).
  vm_compute. reflexivity.
Defined.

(** X9. Whatever the count, point insertion keeps every character of the value in
    its place: without its points the result is the value without its points,
    and the result is one character longer unless the count is zero. *)
Theorem add_dec_places_keeps_characters :
  forall (value : str) (n : Z),
    filter (fun c => negb (Z.eqb c (code "."))) (add_dec_places value n)
    = filter (fun c => negb (Z.eqb c (code "."))) value
    /\ len (add_dec_places value n) = len value + (if n =? 0 then 0 else 1).
Proof.
  intros value n. split; [apply filter_add_dec_places |].
  destruct (Z.eq_dec n 0) as [-> | Hn]; [cbn; lia |].
  rewrite add_dec_places_split by exact Hn.
  set (k := Z.to_nat _).
  apply Z.eqb_neq in Hn. rewrite Hn.
  unfold len. rewrite length_app. cbn [List.length].
  rewrite <- (firstn_skipn k value) at 3. rewrite length_app. lia.
Qed.

(** ** Further properties of the encoder *)

(** *** Packed and hex encode *)

Lemma length_hex (bs : list byte) : List.length (hex bs) = (2 * List.length bs)%nat.
Proof.
  induction bs as [| b bs IH]; [reflexivity |].
  cbn [hex List.length]. lia.
Qed.

Lemma fromhex_lower_hex_odd (n : nat) (s : str) :
  List.length s = S (2 * n) -> Forall lower_hex_digit s ->
  fromhex s = Raise ValueError.
Proof.
  revert s. induction n as [| n IH]; intros s Hlen Hs.
  - destruct s as [| c [| ? ?]]; try discriminate.
    inversion Hs as [| ? ? [h [Hh ->]] _]; subst.
    cbn [fromhex].
    rewrite (is_c_space_hex_digit h Hh), (hex_value_hex_digit h Hh).
    reflexivity.
  - destruct s as [| c1 [| c2 s]]; try (simpl in Hlen; lia).
    inversion Hs as [| ? ? [h [Hh ->]] Hs']; subst.
    inversion Hs' as [| ? ? [l [Hl ->]] Hs'']; subst.
    rewrite fromhex_pair by assumption.
    rewrite (IH s); [reflexivity | simpl in Hlen; lia | exact Hs''].
Qed.

Lemma sign_nibble_lower_hex (neg : bool) :
  lower_hex_digit (if neg then code "d" else code "c").
Proof.
  destruct neg; [exists 13 | exists 12]; split; (lia || reflexivity).
Qed.

Lemma pack_packed_digits (type : str) (neg : bool) (ds : str) (d d' pad : Z) :
  In type packed_tags -> all_digits ds ->
  pack (decimal_string neg ds d) type d' pad
  = fromhex (zfill ds (pad * 2 - 1) ++ [if neg then code "d" else code "c"]).
Proof.
  intros Htag Hds.
  rewrite (pack_packed_eq _ _ _ _ Htag).
  rewrite (replace_decimal neg ds d Hds), (startswith_decimal neg ds d Hds).
  destruct neg; reflexivity.
Qed.

(** X10. Packed encode of a decimal string whose digits fit the field returns
    exactly [pad_length] bytes: the digits, zero-filled on the left to
    [2 * pad_length - 1], followed by the sign half-byte, [d] for a value that
    starts with a minus sign and [c] otherwise. *)
Theorem pack_packed_fills_field :
  forall (type : str) (neg : bool) (digits : str) (d d' pad : Z),
    In type packed_tags -> all_digits digits ->
    len digits <= pad * 2 - 1 ->
    exists bs,
      pack (decimal_string neg digits d) type d' pad = Ok bs
      /\ len bs = pad
      /\ hex bs = zfill digits (pad * 2 - 1)
                  ++ [if neg then code "d" else code "c"].
Proof.
  intros type neg ds d d' pad Htag Hds Hpad.
  rewrite (pack_packed_digits _ _ _ _ _ _ Htag Hds).
  destruct (zfill_digits_props ds (pad * 2 - 1) Hds Hpad) as [Hz Hlen].
  destruct (fromhex_lower_hex (Z.to_nat pad)
              (zfill ds (pad * 2 - 1) ++ [if neg then code "d" else code "c"]))
    as [bs [Hbs Hhex]].
  - rewrite length_app. unfold len in Hlen. cbn [List.length]. lia.
  - apply Forall_app. split.
    + eapply Forall_impl; [| exact Hz]. apply digit_is_lower_hex.
    + constructor; [apply sign_nibble_lower_hex | constructor].
  - exists bs. split; [exact Hbs |]. split; [| exact Hhex].
    apply (f_equal (@List.length _)) in Hhex.
    rewrite length_hex, length_app in Hhex. cbn [List.length] in Hhex.
    unfold len in *. lia.
Qed.

Lemma pack_packed_fills_field_witness :
  exists bs,
    pack (decimal_string true "75" 1) "pd+" 0 3 = Ok bs
    /\ len bs = 3
    /\ hex bs = zfill "75" (3 * 2 - 1) ++ [code "d"].
Proof.
  apply (pack_packed_fills_field "pd+" true "75" 1 0 3).
  - vm_compute. tauto.
  - repeat constructor.
  - vm_compute. congruence.
Defined.

(** X11. Packed encode never shortens a value: when the digits outnumber the
    [2 * pad_length - 1] the field holds, an even number of digits is refused
    with [ValueError] (the digits and the sign no longer pair up into bytes),
    and an odd number of digits is encoded whole, in more than [pad_length]
    bytes. *)
Theorem pack_packed_beyond_field :
  forall (type : str) (neg : bool) (digits : str) (d d' pad : Z),
    In type packed_tags -> all_digits digits ->
    pad * 2 - 1 < len digits ->
    (Z.even (len digits) = true ->
     pack (decimal_string neg digits d) type d' pad = Raise ValueError)
    /\ (Z.odd (len digits) = true ->
        exists bs,
          pack (decimal_string neg digits d) type d' pad = Ok bs
          /\ hex bs = digits ++ [if neg then code "d" else code "c"]
          /\ pad < len bs).
Proof.
  intros type neg ds d d' pad Htag Hds Hpad.
  rewrite (pack_packed_digits _ _ _ _ _ _ Htag Hds).
  rewrite (zfill_digits ds _ Hds).
  replace (Z.to_nat (pad * 2 - 1 - len ds)) with 0%nat by lia.
  cbn [repeat app].
  assert (Hall : Forall lower_hex_digit
                        (ds ++ [if neg then code "d" else code "c"])).
  { apply Forall_app. split.
    - eapply Forall_impl; [| exact Hds]. apply digit_is_lower_hex.
    - constructor; [apply sign_nibble_lower_hex | constructor]. }
  split; intros Hpar.
  - apply Z.even_spec in Hpar. destruct Hpar as [k Hk].
    apply (fromhex_lower_hex_odd (Z.to_nat k)); [| exact Hall].
    rewrite length_app. cbn [List.length]. unfold len in *. lia.
  - apply Z.odd_spec in Hpar. destruct Hpar as [k Hk].
    destruct (fromhex_lower_hex (Z.to_nat (k + 1))
                (ds ++ [if neg then code "d" else code "c"]))
      as [bs [Hbs Hhex]]; [| exact Hall |].
    + rewrite length_app. cbn [List.length]. unfold len in *. lia.
    + exists bs. split; [exact Hbs |]. split; [exact Hhex |].
      apply (f_equal (@List.length _)) in Hhex.
      rewrite length_hex, length_app in Hhex. cbn [List.length] in Hhex.
      unfold len in *. lia.
Qed.

Lemma pack_packed_beyond_field_witness :
  pack (decimal_string false "1234" 0) "pd" 0 2 = Raise ValueError
  /\ exists bs,
       pack (decimal_string false "12345" 0) "pd" 0 2 = Ok bs
       /\ hex bs = lit "12345" ++ [code "c"]
       /\ 2 < len bs.
Proof.
  split.
  - apply (pack_packed_beyond_field "pd" false "1234" 0 0 2).
    + vm_compute. tauto.
    + repeat constructor.
    + vm_compute. reflexivity.
    + vm_compute. reflexivity.
  - apply (pack_packed_beyond_field "pd" false "12345" 0 0 2).
    + vm_compute. tauto.
    + repeat constructor.
    + vm_compute. reflexivity.
    + vm_compute. reflexivity.
Defined.

(** X12. Hex encode of a string of lower-case hexadecimal digits pairs them up
    into bytes: an even number of digits gives half as many bytes, whose hex
    text is the string, and an odd number is refused with [ValueError]. *)
Theorem pack_hex_pairs_digits :
  forall (value : str) (d pad : Z),
    Forall lower_hex_digit value ->
    (Z.even (len value) = true ->
     exists bs, pack value "hex" d pad = Ok bs
                /\ hex bs = value /\ 2 * len bs = len value)
    /\ (Z.odd (len value) = true ->
        pack value "hex" d pad = Raise ValueError).
Proof.
  intros value d pad Hv.
  change (pack value "hex" d pad) with (fromhex value).
  split; intros Hpar.
  - apply Z.even_spec in Hpar. destruct Hpar as [k Hk].
    destruct (fromhex_lower_hex (Z.to_nat k) value) as [bs [Hbs Hhex]];
      [unfold len in *; lia | exact Hv |].
    exists bs. split; [exact Hbs |]. split; [exact Hhex |].
    apply (f_equal (@List.length _)) in Hhex. rewrite length_hex in Hhex.
    unfold len. lia.
  - apply Z.odd_spec in Hpar. destruct Hpar as [k Hk].
    apply (fromhex_lower_hex_odd (Z.to_nat k)); [| exact Hv].
    unfold len in *. lia.
Qed.

Lemma pack_hex_pairs_digits_witness :
  pack "c1f" "hex" 0 0 = Raise ValueError.
Proof.
  apply (pack_hex_pairs_digits "c1f" 0 0).
  - repeat constructor;
      [exists 12 | exists 1 | exists 15]; split; (lia || reflexivity).
  - vm_compute. reflexivity.
Defined.

(** *** Binary encode *)

Lemma len_to_bytes_be (k : nat) (n : Z) : len (to_bytes_be k n) = Z.of_nat k.
Proof. unfold len. now rewrite length_to_bytes_be. Qed.

(** X13. Binary encode ignores the pad length. A value that [int] reads as [n]
    gives eight bytes holding [n] (modulo [2^64] in the signed format) when
    [n] is in the range of the format, and [struct.error] otherwise; a value
    that [int] refuses gives that refusal. *)
Theorem pack_binary_eight_bytes :
  forall (v : str) (d pad : Z),
    (forall n, int_of_str v = Ok n ->
       (0 <= n < 2 ^ 64 ->
        exists bs, pack v "bi" d pad = Ok bs /\ len bs = 8 /\ be_value bs = n)
       /\ (~ 0 <= n < 2 ^ 64 -> pack v "bi" d pad = Raise StructError)
       /\ (- 2 ^ 63 <= n < 2 ^ 63 ->
           exists bs, pack v "bi+" d pad = Ok bs /\ len bs = 8
                      /\ be_value bs = n mod 2 ^ 64)
       /\ (~ - 2 ^ 63 <= n < 2 ^ 63 -> pack v "bi+" d pad = Raise StructError))
    /\ (forall e, int_of_str v = Raise e ->
          pack v "bi" d pad = Raise e /\ pack v "bi+" d pad = Raise e).
Proof.
  intros v d pad.
  change (pack v "bi" d pad) with (n <- int_of_str v ;; struct_pack_Q n).
  change (pack v "bi+" d pad) with (n <- int_of_str v ;; struct_pack_q n).
  split.
  - intros n Hv. rewrite Hv. cbn [bind].
    unfold struct_pack_Q, struct_pack_q.
    repeat split.
    + intros Hn.
      replace ((0 <=? n) && (n <? 2 ^ 64)) with true
        by (symmetry; apply andb_true_intro; split;
            [apply Z.leb_le | apply Z.ltb_lt]; lia).
      eexists. split; [reflexivity |]. split; [apply len_to_bytes_be |].
      rewrite be_value_to_bytes_be. change (256 ^ Z.of_nat 8) with (2 ^ 64).
      apply Z.mod_small. lia.
    + intros Hn.
      destruct ((0 <=? n) && (n <? 2 ^ 64)) eqn:E; [| reflexivity].
      apply andb_prop in E. destruct E as [E1 E2].
      apply Z.leb_le in E1. apply Z.ltb_lt in E2. lia.
    + intros Hn.
      replace ((- 2 ^ 63 <=? n) && (n <? 2 ^ 63)) with true
        by (symmetry; apply andb_true_intro; split;
            [apply Z.leb_le | apply Z.ltb_lt]; lia).
      eexists. split; [reflexivity |]. split; [apply len_to_bytes_be |].
      rewrite be_value_to_bytes_be. change (256 ^ Z.of_nat 8) with (2 ^ 64).
      apply Z.mod_mod. lia.
    + intros Hn.
      destruct ((- 2 ^ 63 <=? n) && (n <? 2 ^ 63)) eqn:E; [| reflexivity].
      apply andb_prop in E. destruct E as [E1 E2].
      apply Z.leb_le in E1. apply Z.ltb_lt in E2. lia.
  - intros e Hv. rewrite Hv. split; reflexivity.
Qed.

Lemma pack_binary_eight_bytes_witness :
  (exists bs, pack "300" "bi" 0 2 = Ok bs /\ len bs = 8 /\ be_value bs = 300)
  /\ pack "-1" "bi" 0 2 = Raise StructError
  /\ pack "9223372036854775808" "bi+" 0 8 = Raise StructError
  /\ pack "12a" "bi" 0 2 = Raise ValueError.
Proof.
  repeat apply conj.
  - apply (proj1 (pack_binary_eight_bytes "300" 0 2) 300).
    + vm_compute. reflexivity.
    + vm_compute. split; congruence.
  - apply (proj1 (pack_binary_eight_bytes "-1" 0 2) (-1)).
    + vm_compute. reflexivity.
    + vm_compute. intros [H _]. apply H. reflexivity.
  - apply (proj1 (pack_binary_eight_bytes "9223372036854775808" 0 8)
                 9223372036854775808).
    + vm_compute. reflexivity.
    + vm_compute. intros [_ H]. discriminate.
  - apply (proj2 (pack_binary_eight_bytes "12a" 0 2) ValueError).
    vm_compute. reflexivity.
Defined.

(** *** Zoned encode *)

Lemma encode_cp037_app (a b : str) (ba bb : list byte) :
  encode_cp037 a = Ok ba -> encode_cp037 b = Ok bb ->
  encode_cp037 (a ++ b) = Ok (ba ++ bb).
Proof.
  revert ba. induction a as [| c a IH]; intros ba Ha Hb.
  - inversion Ha; subst. exact Hb.
  - cbn [app encode_cp037] in *.
    destruct (cp037_encode_char c) as [x |]; [| discriminate].
    destruct (encode_cp037 a) as [bs | |]; try discriminate.
    inversion Ha; subst. rewrite (IH bs eq_refl Hb). reflexivity.
Qed.

Lemma all_digits_zfill (ds : str) (width : Z) :
  all_digits ds -> all_digits (zfill ds width).
Proof.
  intros Hds. rewrite zfill_digits by exact Hds.
  apply Forall_app. split; [| exact Hds].
  apply Forall_forall. intros x Hx. apply repeat_spec in Hx. now subst x.
Qed.

Lemma pack_zoned_eq (v type : str) (d pad : Z) :
  In type zoned_tags ->
  pack v type d pad =
  encode_cp037 (zfill (replace (replace v "." "") "-" "") (pad - 1)
                +++ (if startswith v "-" then "}" else "{")).
Proof.
  intros [<- | [<- | []]]; reflexivity.
Qed.

Lemma pack_zoned_digits (type : str) (neg : bool) (ds : str) (d d' pad : Z) :
  In type zoned_tags -> all_digits ds ->
  exists bs,
    encode_cp037 (zfill ds (pad - 1)) = Ok bs
    /\ decode_cp037 bs = zfill ds (pad - 1)
    /\ List.length bs = List.length (zfill ds (pad - 1))
    /\ pack (decimal_string neg ds d) type d' pad
       = Ok (bs ++ [if neg then xd0 else xc0]).
Proof.
  intros Htag Hds.
  destruct (encode_cp037_total (zfill ds (pad - 1))) as [bs [Hbs [Hlen Hdec]]];
    [apply digit_in_cp037; now apply all_digits_zfill |].
  exists bs. repeat split; try assumption.
  rewrite (pack_zoned_eq _ _ _ _ Htag).
  rewrite (replace_decimal neg ds d Hds), (startswith_decimal neg ds d Hds).
  apply encode_cp037_app; [exact Hbs |].
  destruct neg; reflexivity.
Qed.

(** X14. Zoned and signed-zoned encode of a decimal string write the digits,
    zero-filled on the left to [pad_length - 1], as text, and add one byte for
    the sign: [d0] (the closing brace) for a value that starts with a minus
    sign, [c0] (the opening brace) otherwise.  The buffer is [pad_length]
    bytes long, or one more than the number of digits when that is larger. *)
Theorem pack_zoned_appends_sign :
  forall (type : str) (neg : bool) (digits : str) (d d' pad : Z),
    In type zoned_tags -> all_digits digits ->
    exists bs,
      pack (decimal_string neg digits d) type d' pad
      = Ok (bs ++ [if neg then xd0 else xc0])
      /\ decode_cp037 bs = zfill digits (pad - 1)
      /\ decode_cp037 [if neg then xd0 else xc0]
         = [if neg then code "}" else code "{"]
      /\ len (bs ++ [if neg then xd0 else xc0]) = Z.max pad (len digits + 1).
Proof.
  intros type neg ds d d' pad Htag Hds.
  destruct (pack_zoned_digits type neg ds d d' pad Htag Hds)
    as [bs (_ & Hdec & Hlen & Hp)].
  exists bs. split; [exact Hp |]. split; [exact Hdec |].
  split; [destruct neg; reflexivity |].
  unfold len. rewrite length_app, Hlen, (zfill_digits ds _ Hds).
  rewrite length_app, repeat_length. cbn [List.length].
  pose proof (len_nonneg ds). unfold len in *. lia.
Qed.

Lemma pack_zoned_appends_sign_witness :
  exists bs,
    pack (decimal_string true "123" 0) "zd+" 0 6 = Ok (bs ++ [xd0])
    /\ decode_cp037 bs = zfill "123" (6 - 1)
    /\ decode_cp037 [xd0] = [code "}"]
    /\ len (bs ++ [xd0]) = Z.max 6 (len (lit "123") + 1).
Proof.
  apply (pack_zoned_appends_sign "zd+" true "123" 0 0 6).
  - vm_compute. tauto.
  - repeat constructor.
Defined.

(** ** How encode and decode compose *)

(** *** Zoned: encode, then decode *)

Lemma strip_text_zoned (zf : str) (neg : bool) :
  all_digits zf ->
  rstrip (replace (zf ++ [if neg then code "}" else code "{"]) [code "000"] [])
  = zf ++ [if neg then code "}" else code "{"].
Proof.
  intros Hz. rewrite replace_char, filter_all.
  - apply rstrip_by_keep. destruct neg; reflexivity.
  - apply Forall_app. split.
    + eapply Forall_impl; [| exact Hz].
      intros c Hc. apply digit_not_punct in Hc.
      destruct Hc as (_ & _ & _ & Hc).
      apply negb_true_iff. now apply Z.eqb_neq.
    + constructor; [destruct neg; reflexivity | constructor].
Qed.

(** X15. Zoned values do not survive encoding and decoding. Under the
    signed-zoned format the decoder reads the sign byte that the encoder added
    as one more digit, so the zero-filled digits come back with a "0" after
    them, ten times the value; under the zoned format they come back
    followed by the brace that stands for the sign, and the minus sign is
    gone. *)
Theorem round_trip_zoned_adds_a_character :
  forall (neg : bool) (digits : str) (d pad : Z) (lv sp : bool),
    all_digits digits ->
    round_trip (decimal_string neg digits d) "zd+" d pad lv sp
    = Ok (add_dec_places
            ((if neg then "-" else "") +++ zfill digits (pad - 1) ++ [code "0"])
            d)
    /\ round_trip (decimal_string neg digits d) "zd" d pad lv sp
       = Ok (add_dec_places
               (zfill digits (pad - 1) ++ [if neg then code "}" else code "{"])
               d).
Proof.
  intros neg ds d pad lv sp Hds. unfold round_trip. split.
  - destruct (pack_zoned_digits "zd+" neg ds d d pad) as [bs (_ & Hdec & _ & Hp)];
      [right; left; reflexivity | exact Hds |].
    rewrite Hp. cbn [bind].
    rewrite signed_zoned_reading, Hdec.
    destruct neg; reflexivity.
  - destruct (pack_zoned_digits "zd" neg ds d d pad) as [bs (_ & Hdec & _ & Hp)];
      [left; reflexivity | exact Hds |].
    rewrite Hp. cbn [bind].
    change (unpack (bs ++ [if neg then xd0 else xc0]) "zd" d lv sp)
      with (Ok (add_dec_places
                  (rstrip (replace (decode_cp037 (bs ++ [if neg then xd0 else xc0]))
                                   [code "000"] []))
                  d)).
    unfold decode_cp037 in *. rewrite map_app, Hdec.
    assert (Hb : map cp037_decode_byte [if neg then xd0 else xc0]
                 = [if neg then code "}" else code "{"])
      by (destruct neg; reflexivity).
    rewrite Hb, strip_text_zoned; [reflexivity |].
    now apply all_digits_zfill.
Qed.

(** *** Decode, then encode *)

Lemma cp037_encode_decode_byte (b : byte) :
  cp037_encode_char (cp037_decode_byte b) = Some b.
Proof. destruct b; vm_compute; reflexivity. Qed.

Lemma encode_decode_cp037 (bs : list byte) :
  encode_cp037 (decode_cp037 bs) = Ok bs.
Proof.
  induction bs as [| b bs IH]; [reflexivity |].
  cbn [decode_cp037 map encode_cp037].
  rewrite cp037_encode_decode_byte.
  fold (decode_cp037 bs). rewrite IH. reflexivity.
Qed.

(** X16. Text decode without stripping followed by text encode gives the buffer
    back, filled with null bytes up to the pad length when that is larger:
    the code page is a one-to-one table, so no byte is lost or changed. *)
Theorem text_decode_encode :
  forall (buf : list byte) (d d' pad : Z) (sp : bool),
    (s <- unpack buf "ch" d false sp ;; pack s "ch" d' pad)
    = Ok (buf ++ repeat x00 (Z.to_nat (pad - len buf))).
Proof.
  intros buf d d' pad sp.
  change (unpack buf "ch" d false sp) with (Ok (decode_cp037 buf)).
  cbn [bind].
  change (pack (decode_cp037 buf) "ch" d' pad)
    with (result <- encode_cp037 (decode_cp037 buf) ;; Ok (ljust result pad x00)).
  rewrite encode_decode_cp037. reflexivity.
Qed.

(** X17. A packed buffer whose half-bytes are decimal digits followed by the sign
    [c] or [d] is restored by decoding it and encoding the result with the
    length of the buffer as pad length, for any decimal-place count that does
    not exceed the number of digits. *)
Theorem packed_decode_encode :
  forall (type : str) (buf : list byte) (neg : bool) (digits : str)
         (d : Z) (lv sp : bool),
    In type packed_tags -> all_digits digits ->
    hex buf = digits ++ [if neg then code "d" else code "c"] ->
    0 <= d <= len digits ->
    unpack buf type d lv sp = Ok (decimal_string neg digits d)
    /\ (v <- unpack buf type d lv sp ;; pack v type d (len buf)) = Ok buf.
Proof.
  intros type buf neg ds d lv sp Htag Hds Hhex Hd.
  assert (Hu : unpack buf type d lv sp = Ok (decimal_string neg ds d)).
  { rewrite (unpack_packed_eq _ _ _ _ _ Htag), Hhex.
    destruct (slice_last ds (if neg then code "d" else code "c")) as [-> ->].
    assert (Hn : (if negb (str_in [if neg then code "d" else code "c"]
                                  ["d" : str; "b" : str])
                  then lit "" else lit "-")
                 = (if neg then lit "-" else lit ""))
      by (destruct neg; reflexivity).
    rewrite Hn. unfold decimal_string.
    rewrite add_dec_places_prefix by exact Hd. reflexivity. }
  split; [exact Hu |].
  rewrite Hu. cbn [bind].
  rewrite (pack_packed_digits _ _ _ _ _ _ Htag Hds).
  rewrite (zfill_digits ds _ Hds).
  assert (Hlen : len buf * 2 - 1 = len ds).
  { apply (f_equal (@List.length _)) in Hhex.
    rewrite length_hex, length_app in Hhex. cbn [List.length] in Hhex.
    unfold len. lia. }
  rewrite Hlen, Z.sub_diag. cbn [Z.to_nat repeat app].
  rewrite <- Hhex. apply fromhex_hex.
Qed.

Lemma packed_decode_encode_witness :
  unpack [x12; x34; x5d] "pd" 2 false false = Ok (decimal_string true "12345" 2)
  /\ (v <- unpack [x12; x34; x5d] "pd" 2 false false ;;
      pack v "pd" 2 (len [x12; x34; x5d])) = Ok [x12; x34; x5d].
Proof.
  apply (packed_decode_encode "pd" [x12; x34; x5d] true "12345" 2 false false).
  - vm_compute. tauto.
  - repeat constructor.
  - vm_compute. reflexivity.
  - vm_compute. split; congruence.
Defined.

Lemma to_bytes_be_value (bs : list byte) :
  to_bytes_be (List.length bs) (be_value bs) = bs.
Proof.
  induction bs as [| b bs IH] using rev_ind; [reflexivity |].
  rewrite length_app, be_value_snoc. cbn [List.length].
  rewrite Nat.add_1_r. cbn [to_bytes_be].
  pose proof (byte_val_range b) as Hb.
  replace ((256 * be_value bs + byte_val b) / 256) with (be_value bs)
    by (apply Z.div_unique with (byte_val b); lia).
  replace ((256 * be_value bs + byte_val b) mod 256) with (byte_val b)
    by (apply Z.mod_unique with (be_value bs); lia).
  rewrite IH. f_equal. f_equal.
  unfold byte_of, byte_val. rewrite N2Z.id, Byte.of_to_N. reflexivity.
Qed.

(** X18. An eight-byte buffer is restored by decoding it as binary, unsigned or
    signed, with no decimal places and encoding the result in the same
    format. *)
Theorem binary_decode_encode :
  forall (buf : list byte) (d pad : Z) (lv sp : bool),
    len buf = 8 ->
    (v <- unpack buf "bi" 0 lv sp ;; pack v "bi" d pad) = Ok buf
    /\ (v <- unpack buf "bi+" 0 lv sp ;; pack v "bi+" d pad) = Ok buf.
Proof.
  intros buf d pad lv sp Hlen.
  assert (Hne : buf <> []) by (intros E; rewrite E in Hlen; discriminate).
  assert (Hl : List.length buf = 8%nat) by (unfold len in Hlen; lia).
  pose proof (be_value_range buf) as Hr. rewrite Hlen in Hr.
  change (256 ^ 8) with (2 ^ 64) in Hr.
  split.
  - rewrite unpack_binary_eq, (int_of_0x_hex buf Hne). cbn [bind].
    rewrite add_dec_places_0.
    change (pack (str_of_int (be_value buf)) "bi" d pad)
      with (n <- int_of_str (str_of_int (be_value buf)) ;; struct_pack_Q n).
    rewrite int_of_str_of_int. cbn [bind]. unfold struct_pack_Q.
    replace ((0 <=? be_value buf) && (be_value buf <? 2 ^ 64)) with true
      by (symmetry; apply andb_true_intro; split;
          [apply Z.leb_le | apply Z.ltb_lt]; lia).
    f_equal. rewrite <- Hl. apply to_bytes_be_value.
  - destruct (signed_binary_reading buf 0 lv sp Hne) as [z (Hu & Hz & Hm & _)];
      [lia |].
    rewrite Hlen in Hz, Hm.
    change (8 * 8 - 1) with 63 in Hz. change (8 * 8) with 64 in Hm.
    rewrite Hu. cbn [bind]. rewrite add_dec_places_0.
    change (pack (str_of_int z) "bi+" d pad)
      with (n <- int_of_str (str_of_int z) ;; struct_pack_q n).
    rewrite int_of_str_of_int. cbn [bind]. unfold struct_pack_q.
    replace ((- 2 ^ 63 <=? z) && (z <? 2 ^ 63)) with true
      by (symmetry; apply andb_true_intro; split;
          [apply Z.leb_le | apply Z.ltb_lt]; lia).
    f_equal. rewrite Hm, <- Hl. apply to_bytes_be_value.
Qed.

Lemma binary_decode_encode_witness :
  (v <- unpack [xff; xff; xff; xff; xff; xff; xcf; xc7] "bi+" 0 false false ;;
   pack v "bi+" 0 0) = Ok [xff; xff; xff; xff; xff; xff; xcf; xc7].
Proof.
  apply (binary_decode_encode [xff; xff; xff; xff; xff; xff; xcf; xc7]
                              0 0 false false).
  vm_compute. reflexivity.
Defined.

Lemma round_trip_zoned_adds_a_character_witness :
  round_trip (decimal_string true "12345" 0) "zd+" 0 6 false false
  = Ok (lit "-123450")
  /\ round_trip (decimal_string true "12345" 0) "zd" 0 6 false false
     = Ok (lit "12345}").
Proof.
  apply (round_trip_zoned_adds_a_character true "12345" 0 6 false false).
  repeat constructor.
Defined.

(** *** Zoned decode and padding *)

Lemma lstrip_by_app_all (f : char -> bool) (a b : str) :
  Forall (fun c => f c = true) a -> lstrip_by f (a ++ b) = lstrip_by f b.
Proof.
  induction 1 as [| c a Hc _ IH]; [reflexivity |].
  cbn [app lstrip_by]. now rewrite Hc.
Qed.

Lemma rstrip_by_app_all (f : char -> bool) (s t : str) :
  Forall (fun c => f c = true) t -> rstrip_by f (s ++ t) = rstrip_by f s.
Proof.
  intros Ht. unfold rstrip_by.
  rewrite rev_app_distr, lstrip_by_app_all; [reflexivity |].
  now apply Forall_rev.
Qed.

Lemma decode_cp037_repeat (b : byte) (k : nat) :
  decode_cp037 (repeat b k) = repeat (cp037_decode_byte b) k.
Proof.
  unfold decode_cp037. induction k as [| k IH]; [reflexivity |].
  cbn [repeat map]. now rewrite IH.
Qed.

(** X19. Zoned decode drops null bytes and trailing blanks whether or not the
    caller asks for it: a field of digit characters followed by any number
    of null bytes and then of blanks (byte 40) decodes to the digits, with the
    point inserted. *)
Theorem unpack_zoned_drops_padding :
  forall (digits : str) (nulls blanks : nat) (d : Z) (lv sp : bool),
    all_digits digits ->
    exists bs,
      encode_cp037 digits = Ok bs
      /\ unpack (bs ++ repeat x00 nulls ++ repeat x40 blanks) "zd" d lv sp
         = Ok (add_dec_places digits d).
Proof.
  intros ds j k d lv sp Hds.
  destruct (encode_cp037_total ds (digit_in_cp037 ds Hds)) as [bs [Hbs [_ Hdec]]].
  exists bs. split; [exact Hbs |].
  change (unpack (bs ++ repeat x00 j ++ repeat x40 k) "zd" d lv sp)
    with (Ok (add_dec_places
                (rstrip (replace (decode_cp037 (bs ++ repeat x00 j ++ repeat x40 k))
                                 [code "000"] []))
                d)).
  f_equal. f_equal.
  unfold decode_cp037 at 1. rewrite !map_app.
  fold (decode_cp037 bs) (decode_cp037 (repeat x00 j))
       (decode_cp037 (repeat x40 k)).
  rewrite Hdec, !decode_cp037_repeat.
  change (cp037_decode_byte x00) with (code "000").
  change (cp037_decode_byte x40) with (code " ").
  rewrite replace_char, !filter_app.
  rewrite (filter_all _ ds), (filter_none _ (repeat (code "000") j)),
    (filter_all _ (repeat (code " ") k)).
  - cbn [app]. unfold rstrip. rewrite rstrip_by_app_all.
    + apply rstrip_by_none.
      eapply Forall_impl; [| exact Hds]. apply digit_not_space.
    + apply Forall_forall. intros x Hx. apply repeat_spec in Hx. now subst x.
  - apply Forall_forall. intros x Hx. apply repeat_spec in Hx. now subst x.
  - apply Forall_forall. intros x Hx. apply repeat_spec in Hx. now subst x.
  - eapply Forall_impl; [| exact Hds].
    intros c Hc. apply digit_not_punct in Hc.
    destruct Hc as (_ & _ & _ & Hc).
    apply negb_true_iff. now apply Z.eqb_neq.
Qed.

Lemma unpack_zoned_drops_padding_witness :
  exists bs,
    encode_cp037 "0123" = Ok bs
    /\ unpack (bs ++ repeat x00 2 ++ repeat x40 3) "zd" 2 false false
       = Ok (add_dec_places "0123" 2).
Proof.
  apply (unpack_zoned_drops_padding "0123" 2 3 2 false false).
  repeat constructor.
Defined.
